(** * touchpadlib: decoding of one batch of Linux input events

    A shallow embedding of [fetch_touchpad_event] and
    [reset_touchpad_event] from [src/touchpadlib/touchpadlib.c], and the
    properties of the decoding loop that the specification states;
    then the rest of the library: the bitmap macros, the name tables
    with [typename] and [codename], the choice of the device, the
    printing of the device information, the opening of the device and
    the getters. *)

From stdpp Require Import strings pretty.
From stdpp Require Import base tactics option list numbers.
From Stdlib Require Import ZArith Lia.

Local Open Scope Z_scope.

(** ** Data *)

(** Event types and codes of [<linux/input.h>] that the decoder looks at,
    and the ones the specification names as irrelevant. *)
Definition EV_SYN : Z := 0.
Definition EV_KEY : Z := 1.
Definition EV_REL : Z := 2.
Definition EV_ABS : Z := 3.
Definition SYN_REPORT : Z := 0.
Definition ABS_X : Z := 0.
Definition ABS_Y : Z := 1.
Definition ABS_PRESSURE : Z := 24.

(** [struct timeval] and [struct input_event] of the kernel interface:
    [type] and [code] are [__u16], [value] is [__s32], the two time
    fields are [long]. *)
Record timeval := mk_timeval { tv_sec : Z; tv_usec : Z }.

Record input_event := mk_input_event {
  time : timeval;
  type : Z;
  code : Z;
  value : Z
}.

Definition input_event_wf (e : input_event) : Prop :=
  0 <= type e < 2 ^ 16 /\ 0 <= code e < 2 ^ 16 /\
  - 2 ^ 31 <= value e < 2 ^ 31 /\
  - 2 ^ 63 <= tv_sec (time e) < 2 ^ 63 /\
  - 2 ^ 63 <= tv_usec (time e) < 2 ^ 63.

(** [sizeof(struct input_event)] on an LP64 Linux: a 16-byte [timeval],
    two 16-bit fields and a 32-bit one. *)
Definition sizeof_input_event : Z := 24.

(** Number of records of the local buffer [struct input_event ev[64]]. *)
Definition EV_BUFFER_LEN : nat := 64.

(** Modelled from the spec: [struct touchpad_event] is declared in
    [touchpadlib.h], which is not part of the sources at hand.  The
    fields are the five that [touchpadlib.c] assigns, prints ([%d] for
    the axes, [%ld] for the time) and exposes through its getters; the
    specification lists the same five. *)
Record touchpad_event := mk_touchpad_event {
  x : Z;
  y : Z;
  pressure : Z;
  seconds : Z;
  useconds : Z
}.

(** Assignments [event->f = v]. *)
Definition set_x (v : Z) (event : touchpad_event) : touchpad_event :=
  {| x := v; y := y event; pressure := pressure event;
     seconds := seconds event; useconds := useconds event |}.
Definition set_y (v : Z) (event : touchpad_event) : touchpad_event :=
  {| x := x event; y := v; pressure := pressure event;
     seconds := seconds event; useconds := useconds event |}.
Definition set_pressure (v : Z) (event : touchpad_event) : touchpad_event :=
  {| x := x event; y := y event; pressure := v;
     seconds := seconds event; useconds := useconds event |}.
Definition set_seconds (v : Z) (event : touchpad_event) : touchpad_event :=
  {| x := x event; y := y event; pressure := pressure event;
     seconds := v; useconds := useconds event |}.
Definition set_useconds (v : Z) (event : touchpad_event) : touchpad_event :=
  {| x := x event; y := y event; pressure := pressure event;
     seconds := seconds event; useconds := v |}.

(** ** Integer conversions of the C code *)

(** Conversion to [int] (32 bits, two's complement). *)
Definition to_int (z : Z) : Z := (z + 2 ^ 31) mod 2 ^ 32 - 2 ^ 31.

(** Conversion to [size_t] (64 bits, unsigned). *)
Definition to_size_t (z : Z) : Z := z mod 2 ^ 64.

(** ** The call [read(fd, ev, sizeof(struct input_event) * 64)]

    What the system call did on one invocation: the value it returned and
    the contents of the 64 records of [ev] afterwards.  Only the first
    [read_ret] bytes of the buffer come from the device; the records
    behind them hold whatever the stack held. *)
Record read_result := mk_read {
  read_ret : Z;
  read_buf : list input_event
}.

(** The contract of [read(2)]: it returns [-1] or a byte count that is at
    most the count asked for, and the buffer has its 64 records. *)
Definition read_ok (r : read_result) : Prop :=
  -1 <= read_ret r <= sizeof_input_event * Z.of_nat EV_BUFFER_LEN /\
  length (read_buf r) = EV_BUFFER_LEN.

(** The batch of a read: the complete records the device delivered. *)
Definition batch (r : read_result) : list input_event :=
  take (Z.to_nat (read_ret r / sizeof_input_event)) (read_buf r).

(** ** The code *)

(** [reset_touchpad_event], lines 694-701. *)
Definition reset_touchpad_event (event : touchpad_event) : touchpad_event :=
  let event := set_x (-1) event in
  let event := set_y (-1) event in
  let event := set_pressure (-1) event in
  let event := set_seconds 0 event in
  let event := set_useconds 0 event in
  event.

(** The body of the [for] loop of [fetch_touchpad_event], lines 740-759,
    at index [i] with [e] the record [ev[i]]. *)
Definition loop_body (i : Z) (e : input_event) (event : touchpad_event)
  : touchpad_event :=
  let type := type e in
  let code := code e in
  let event :=
    if i =? 0
    then set_useconds (tv_usec (time e)) (set_seconds (tv_sec (time e)) event)
    else event in
  if type =? EV_ABS then
    if code =? ABS_X then set_x (value e) event
    else if code =? ABS_Y then set_y (value e) event
    else if code =? ABS_PRESSURE then set_pressure (value e) event
    else event
  else event.

(** The loop [for (i = 0; i < rd / sizeof(struct input_event); i++)],
    entered at index [i].  The comparison is made in [size_t], to which
    both [i] and [rd] are converted; [i] stays far below the range of
    [int], so [i++] is [i + 1].  [None] stands for an access outside
    [ev]: a lookup that misses, or fuel (one more than the buffer has
    records) used up.  The result is the state on leaving the loop: the
    final [i], which is the number of iterations made, and the record. *)
Fixpoint fetch_loop (fuel : nat) (i rd : Z) (ev : list input_event)
    (event : touchpad_event) : option (Z * touchpad_event) :=
  match fuel with
  | O => None
  | S fuel' =>
      if to_size_t i <? to_size_t rd / sizeof_input_event then
        e ← ev !! Z.to_nat i;
        fetch_loop fuel' (i + 1) rd ev (loop_body i e event)
      else Some (i, event)
  end.

(** [fetch_touchpad_event], lines 723-762.  [r] is what the call to
    [read] did, [event] the record [*event] before the call; the result
    is the returned [int] and the record after the call. *)
Definition fetch_touchpad_event (r : read_result) (event : touchpad_event)
  : option (Z * touchpad_event) :=
  let ev := read_buf r in
  let rd := to_int (read_ret r) in
  if rd <? to_int sizeof_input_event then Some (1, event)
  else
    let event := reset_touchpad_event event in
    st ← fetch_loop (S EV_BUFFER_LEN) 0 rd ev event;
    Some (0, st.2).

(** The classification that lines 751-759 make of a record, as the
    specification names it: which field, if any, the record updates. *)
Inductive axis := AxisX | AxisY | AxisPressure | AxisNone.

Definition classify_axis (type code : Z) : axis :=
  if type =? EV_ABS then
    if code =? ABS_X then AxisX
    else if code =? ABS_Y then AxisY
    else if code =? ABS_PRESSURE then AxisPressure
    else AxisNone
  else AxisNone.

(** The assignment that lines 751-759 make for a record. *)
Definition store_axis (e : input_event) (event : touchpad_event)
  : touchpad_event :=
  match classify_axis (type e) (code e) with
  | AxisX => set_x (value e) event
  | AxisY => set_y (value e) event
  | AxisPressure => set_pressure (value e) event
  | AxisNone => event
  end.

(** The field of a record that an axis names; none for [AxisNone]. *)
Definition field (a : axis) (event : touchpad_event) : option Z :=
  match a with
  | AxisX => Some (x event)
  | AxisY => Some (y event)
  | AxisPressure => Some (pressure event)
  | AxisNone => None
  end.

(** The value [-1] with which [reset_touchpad_event] marks a field for
    which no record came. *)
Definition ABSENT : Z := -1.

(** A record that updates one of the three fields. *)
Definition relevant (e : input_event) : Prop :=
  classify_axis (type e) (code e) <> AxisNone.

(** ** Examples *)

Definition ev_abs_x (v s us : Z) : input_event :=
  mk_input_event (mk_timeval s us) EV_ABS ABS_X v.
Definition ev_abs_y (v s us : Z) : input_event :=
  mk_input_event (mk_timeval s us) EV_ABS ABS_Y v.
Definition ev_abs_pressure (v s us : Z) : input_event :=
  mk_input_event (mk_timeval s us) EV_ABS ABS_PRESSURE v.
Definition ev_syn_report (s us : Z) : input_event :=
  mk_input_event (mk_timeval s us) EV_SYN SYN_REPORT 0.
Definition ev_key (c v s us : Z) : input_event :=
  mk_input_event (mk_timeval s us) EV_KEY c v.

(** Some record left on the stack behind the bytes that were read. *)
Definition stale : input_event := ev_abs_x 777 99 99.

(** A read that delivered the records [l] and [extra] more bytes. *)
Definition read_of (l : list input_event) (extra : Z) : read_result :=
  mk_read (sizeof_input_event * Z.of_nat (length l) + extra)
          (l ++ replicate (EV_BUFFER_LEN - length l) stale).

Definition old_event : touchpad_event := mk_touchpad_event 100 200 30 7 8.

(** ** The loop as a fold over the batch *)

(** The loop bodies for the records [l], the first at index [i]. *)
Fixpoint decode_from (i : Z) (l : list input_event) (event : touchpad_event)
  : touchpad_event :=
  match l with
  | [] => event
  | e :: l' => decode_from (i + 1) l' (loop_body i e event)
  end.

(** The record after [reset_touchpad_event]. *)
Definition blank : touchpad_event :=
  mk_touchpad_event ABSENT ABSENT ABSENT 0 0.

(** The time stamp of a record, stored in [seconds] and [useconds]. *)
Definition stamp (e : input_event) (event : touchpad_event) : touchpad_event :=
  set_useconds (tv_usec (time e)) (set_seconds (tv_sec (time e)) event).

(** The sample that a batch decodes to. *)
Definition decode (l : list input_event) : touchpad_event :=
  decode_from 0 l blank.

Definition is_axis (a : axis) (e : input_event) : Prop :=
  classify_axis (type e) (code e) = a.

(** ** The bitmap macros, lines 53-58

    [BITS_PER_LONG] is [sizeof(long) * 8], a [size_t]; an operand that
    meets it is converted to [size_t].  [NBITS] is used on the [int]
    constant [KEY_MAX], so its [x - 1] is computed in [int]. *)
Definition BITS_PER_LONG : Z := 8 * 8.
Definition NBITS (x : Z) : Z :=
  to_size_t (to_size_t (to_int (x - 1)) / BITS_PER_LONG + 1).
Definition OFF (x : Z) : Z := to_size_t x mod BITS_PER_LONG.
Definition LONG (x : Z) : Z := to_size_t x / BITS_PER_LONG.

(** [test_bit(bit, array)] on an array of [unsigned long]; [None] is a
    read outside the array. *)
Definition test_bit (bit : Z) (array : list Z) : option Z :=
  w ← array !! Z.to_nat (LONG bit);
  Some (Z.land (Z.shiftr w (OFF bit)) 1).

(** The value of an array of [unsigned long] read as one bitmap, bit 0
    of the first word lowest: the numbering the kernel uses for the
    capability bitmaps. *)
Fixpoint bitmap_value (array : list Z) : Z :=
  match array with
  | [] => 0
  | w :: array' => w + 2 ^ BITS_PER_LONG * bitmap_value array'
  end.

(** ** The name tables, lines 77-535 *)

(** The other event types and the table sizes of [<linux/input.h>]. *)
Definition EV_MSC : Z := 4.
Definition EV_SW : Z := 5.
Definition EV_LED : Z := 17.
Definition EV_SND : Z := 18.
Definition EV_REP : Z := 20.
Definition EV_FF : Z := 21.
Definition EV_PWR : Z := 22.
Definition EV_FF_STATUS : Z := 23.
Definition EV_MAX : Z := 31.
Definition SYN_MAX : Z := 15.
Definition KEY_MAX : Z := 767.
Definition REL_MAX : Z := 15.
Definition ABS_MAX : Z := 63.
Definition MSC_MAX : Z := 7.
Definition SW_MAX : Z := 16.
Definition LED_MAX : Z := 15.
Definition SND_MAX : Z := 7.
Definition REP_MAX : Z := 1.
Definition FF_MAX : Z := 127.
Definition FF_STATUS_MAX : Z := 1.

(** Conversion to [unsigned int]. *)
Definition to_uint (z : Z) : Z := z mod 2 ^ 32.

(** An array of [n] elements given by designated initializers: the range
    [[0 ... n-1] = dflt] first, then [[i] = v] for each pair, in the
    order written. *)
Definition designated {A} (n : Z) (dflt : A) (inits : list (Z * A)) : list A :=
  foldl (fun table iv => <[Z.to_nat iv.1 := iv.2]> table)
        (replicate (Z.to_nat n) dflt) inits.

(** [events], lines 79-87; [None] is a [NULL] entry. *)
Definition events : list (option string) :=
  designated (EV_MAX + 1) None
    [(EV_SYN, Some "EV_SYN"); (EV_KEY, Some "EV_KEY");
     (EV_REL, Some "EV_REL"); (EV_ABS, Some "EV_ABS");
     (EV_MSC, Some "EV_MSC"); (EV_LED, Some "EV_LED");
     (EV_SND, Some "EV_SND"); (EV_REP, Some "EV_REP");
     (EV_FF, Some "EV_FF"); (EV_PWR, Some "EV_PWR");
     (EV_FF_STATUS, Some "EV_FF_STATUS"); (EV_SW, Some "EV_SW")]%string.

(** [maxval], lines 89-102. *)
Definition maxval : list Z :=
  designated (EV_MAX + 1) (-1)
    [(EV_SYN, SYN_MAX); (EV_KEY, KEY_MAX); (EV_REL, REL_MAX);
     (EV_ABS, ABS_MAX); (EV_MSC, MSC_MAX); (EV_SW, SW_MAX);
     (EV_LED, LED_MAX); (EV_SND, SND_MAX); (EV_REP, REP_MAX);
     (EV_FF, FF_MAX); (EV_FF_STATUS, FF_STATUS_MAX)].

(** The code name tables of lines 104-522.  Their entries follow the
    names that the installed [<linux/input.h>] defines; what the lookup
    depends on is their declared size, [X_MAX + 1] each. *)
Record code_names := mk_code_names {
  keys : list (option string);
  relatives : list (option string);
  absolutes : list (option string);
  misc : list (option string);
  leds : list (option string);
  repeats : list (option string);
  sounds : list (option string);
  switches : list (option string);
  force : list (option string);
  forcestatus : list (option string)
}.

Definition declared_size (table : list (option string)) (max : Z) : Prop :=
  Z.of_nat (length table) = max + 1.

Definition code_names_declared (T : code_names) : Prop :=
  declared_size (keys T) KEY_MAX /\ declared_size (relatives T) REL_MAX
  /\ declared_size (absolutes T) ABS_MAX /\ declared_size (misc T) MSC_MAX
  /\ declared_size (leds T) LED_MAX /\ declared_size (repeats T) REP_MAX
  /\ declared_size (sounds T) SND_MAX /\ declared_size (switches T) SW_MAX
  /\ declared_size (force T) FF_MAX
  /\ declared_size (forcestatus T) FF_STATUS_MAX.

(** [names], lines 524-535: the table of the codes of each event type;
    [None] is [NULL].  The entry of [EV_SYN] is [events]. *)
Definition names (T : code_names) : list (option (list (option string))) :=
  designated (EV_MAX + 1) None
    [(EV_SYN, Some events); (EV_KEY, Some (keys T));
     (EV_REL, Some (relatives T)); (EV_ABS, Some (absolutes T));
     (EV_MSC, Some (misc T)); (EV_LED, Some (leds T));
     (EV_SND, Some (sounds T)); (EV_REP, Some (repeats T));
     (EV_SW, Some (switches T));
     (EV_FF, Some (force T)); (EV_FF_STATUS, Some (forcestatus T))].

(** [typename], lines 623-626, on an [unsigned int]; [None] is a read
    outside [events]. *)
Definition typename (type : Z) : option string :=
  if type <=? to_uint EV_MAX then
    entry ← events !! Z.to_nat type;
    match entry with
    | Some name => Some name
    | None => Some "?"%string
    end
  else Some "?"%string.

(** [codename], lines 628-631, on two [unsigned int]; the [int] of
    [maxval] is converted to [unsigned int] for the comparison.  [None]
    is a read outside a table. *)
Definition codename (T : code_names) (type code : Z) : option string :=
  if type <=? to_uint EV_MAX then
    max ← maxval !! Z.to_nat type;
    if code <=? to_uint max then
      table ← names T !! Z.to_nat type;
      match table with
      | Some table =>
          entry ← table !! Z.to_nat code;
          match entry with
          | Some name => Some name
          | None => Some "?"%string
          end
      | None => Some "?"%string
      end
    else Some "?"%string
  else Some "?"%string.

(** Tables of the declared sizes with no name in them. *)
Definition empty_code_names : code_names :=
  let table max := replicate (Z.to_nat (max + 1)) None in
  mk_code_names (table KEY_MAX) (table REL_MAX) (table ABS_MAX)
    (table MSC_MAX) (table LED_MAX) (table REP_MAX) (table SND_MAX)
    (table SW_MAX) (table FF_MAX) (table FF_STATUS_MAX).

(** ** Choosing the device, lines 537-596 *)

Definition DEV_INPUT_EVENT : string := "/dev/input".
Definition EVENT_DEV_NAME : string := "event".

(** A C string is a [string]; reading it gives its characters as
    [unsigned char] and 0 at its end. *)
Definition char_at_head (s : string) : Z :=
  match s with
  | EmptyString => 0
  | String c _ => Z.of_nat (Ascii.nat_of_ascii c)
  end.

Definition behind_head (s : string) : string :=
  match s with
  | EmptyString => EmptyString
  | String _ s' => s'
  end.

(** [strncmp(s1, s2, n)] of the C library: the difference of the first
    characters that differ among the first [n], 0 when there is none
    before the end of the strings. *)
Fixpoint strncmp (s1 s2 : string) (n : nat) : Z :=
  match n with
  | O => 0
  | S n' =>
      let c1 := char_at_head s1 in
      let c2 := char_at_head s2 in
      if c1 =? c2 then
        if c1 =? 0 then 0
        else strncmp (behind_head s1) (behind_head s2) n'
      else c1 - c2
  end.

(** [is_event_device], lines 542-544, on the [d_name] of the entry. *)
Definition is_event_device (d_name : string) : Z :=
  if strncmp EVENT_DEV_NAME d_name 5 =? 0 then 1 else 0.

(** [scandir(DEV_INPUT_EVENT, &namelist, is_event_device, versionsort)]:
    on the entries of the directory it returns the number of those for
    which the filter gives non-zero, and -1 when the directory cannot be
    read ([None]). *)
Definition scandir_count (dir : option (list string)) : Z :=
  match dir with
  | None => -1
  | Some entries =>
      Z.of_nat (length (filter (fun d => is_event_device d <> 0) entries))
  end.

(** The return value of [scan_devices], lines 553-596.  [dir] is the
    directory that [scandir] finds and [devnum] the number that
    [scanf] stores; the listing on [stderr] is left out, it has no part
    in the result.  [None] is [NULL]. *)
Definition scan_devices (dir : option (list string)) (devnum : Z)
  : option string :=
  let ndev := scandir_count dir in
  if ndev <=? 0 then None
  else if (devnum >=? ndev) || (devnum <? 0) then None
  else Some (DEV_INPUT_EVENT +:+ "/" +:+ EVENT_DEV_NAME +:+ pretty devnum).

(** ** Printing the device information, lines 598-687 *)

(** A call of [printf] with its arguments. *)
Inductive printed :=
| PVersion (major minor patch : Z)
| PId (bus vendor product version : Z)
| PName (name : string)
| PSupported
| PType (type : Z) (name : string)
| PCode (code : Z) (name : string)
| PAbs (label : string) (v : Z)
| PRepeatHead
| PRepeatType (type : Z) (name : string)
| PRepeatCode (i : Z) (name : string)
| PRepeatValue (v : Z).

(** A loop [for (i = i0; i < bound; i++)] whose body prints: the output
    of the iterations, in order.  [None] when the body reads outside an
    array or the fuel is used up. *)
Fixpoint for_emit (fuel : nat) (i bound : Z)
    (body : Z -> option (list printed)) : option (list printed) :=
  match fuel with
  | O => None
  | S fuel' =>
      if i <? bound then
        out ← body i;
        rest ← for_emit fuel' (i + 1) bound body;
        Some (out ++ rest)
      else Some []
  end.

(** [absval], line 391. *)
Definition absval : list string :=
  ["Value"; "Min  "; "Max  "; "Fuzz "; "Flat "; "Resolution "]%string.

(** [print_absdata], lines 598-607; [abs] is the array after the
    [EVIOCGABS] call.  First the body of its loop at index [k]. *)
Definition print_absdata_line (abs : list Z) (k : Z) : option (list printed) :=
  a ← abs !! Z.to_nat k;
  if (k <? 3) || negb (a =? 0) then
    label ← absval !! Z.to_nat k;
    Some [PAbs label a]
  else Some [].

Definition print_absdata (abs : list Z) : option (list printed) :=
  for_emit 7 0 6 (print_absdata_line abs).

(** [print_repdata], lines 609-621; [rep] is the array after the
    [EVIOCGREP] call.  The loop runs while [i <= REP_MAX], that is while
    [i < REP_MAX + 1]. *)
Definition print_repdata_line (T : code_names) (rep : list Z) (i : Z)
  : option (list printed) :=
  table ← names T !! Z.to_nat EV_REP;
  name ← match table with
         | Some table =>
             entry ← table !! Z.to_nat i;
             match entry with
             | Some name => Some name
             | None => Some "?"%string
             end
         | None => Some "?"%string
         end;
  v ← rep !! Z.to_nat i;
  Some [PRepeatCode i name; PRepeatValue v].

Definition print_repdata (T : code_names) (rep : list Z)
  : option (list printed) :=
  for_emit (S (Z.to_nat (REP_MAX + 1))) 0 (REP_MAX + 1)
           (print_repdata_line T rep).

(** What the [ioctl] calls of [print_device_info] do on a device: the
    value the [EVIOCGVERSION] call returns, and the contents of the
    buffers [version], [id], [name], [bit[type]], [abs] and [rep] after
    the calls that fill them. *)
Record device := mk_device {
  version_rc : Z;
  version : Z;
  dev_id : list Z;
  dev_name : string;
  evbits : Z -> list Z;
  absdata : Z -> list Z;
  repdata : list Z
}.

Definition ID_BUS : Z := 0.
Definition ID_VENDOR : Z := 1.
Definition ID_PRODUCT : Z := 2.
Definition ID_VERSION : Z := 3.

(** The buffers have the sizes of their declarations: [id[4]], rows of
    [bit] with [NBITS(KEY_MAX)] words, [abs[6]], [rep[2]]. *)
Definition device_wf (dev : device) : Prop :=
  length (dev_id dev) = 4%nat
  /\ (forall type, Z.of_nat (length (evbits dev type)) = NBITS KEY_MAX)
  /\ (forall axis, length (absdata dev axis) = 6%nat)
  /\ length (repdata dev) = 2%nat.

(** The body of the loop over the codes of one event type, lines
    673-677, and the loop, lines 672-677. *)
Definition print_code (T : code_names) (dev : device) (type code : Z)
  : option (list printed) :=
  b ← test_bit code (evbits dev type);
  if negb (b =? 0) then
    cn ← codename T type code;
    abs ← (if type =? EV_ABS then print_absdata (absdata dev code)
           else Some []);
    Some (PCode code cn :: abs)
  else Some [].

Definition print_codes (T : code_names) (dev : device) (type : Z)
  : option (list printed) :=
  for_emit (S (Z.to_nat KEY_MAX)) 0 KEY_MAX (print_code T dev type).

(** The body of the loop over the event types, lines 668-678. *)
Definition print_type (T : code_names) (dev : device) (type : Z)
  : option (list printed) :=
  b ← test_bit type (evbits dev 0);
  if negb (b =? 0) && negb (type =? EV_REP) then
    tn ← typename type;
    if type =? EV_SYN then Some [PType type tn]
    else
      codes ← print_codes T dev type;
      Some (PType type tn :: codes)
  else Some [].

(** The part on key repeat, lines 681-685. *)
Definition print_repeat (T : code_names) (dev : device)
  : option (list printed) :=
  b ← test_bit EV_REP (evbits dev 0);
  if negb (b =? 0) then
    entry ← events !! Z.to_nat EV_REP;
    let tn := match entry with
              | Some name => name
              | None => "?"%string
              end in
    rep ← print_repdata T (repdata dev);
    Some (PRepeatHead :: PRepeatType EV_REP tn :: rep)
  else Some [].

(** [print_device_info], lines 640-687: the returned [int] and the calls
    of [printf] made. *)
Definition print_device_info (T : code_names) (dev : device)
  : option (Z * list printed) :=
  if negb (version_rc dev =? 0) then Some (1, [])
  else
    let version := version dev in
    let out_version :=
      [PVersion (Z.shiftr version 16) (Z.land (Z.shiftr version 8) 255)
                (Z.land version 255)] in
    bus ← dev_id dev !! Z.to_nat ID_BUS;
    vendor ← dev_id dev !! Z.to_nat ID_VENDOR;
    product ← dev_id dev !! Z.to_nat ID_PRODUCT;
    idversion ← dev_id dev !! Z.to_nat ID_VERSION;
    let out_head :=
      [PId bus vendor product idversion; PName (dev_name dev); PSupported] in
    out_types ← for_emit (S (Z.to_nat EV_MAX)) 0 EV_MAX (print_type T dev);
    out_rep ← print_repeat T dev;
    Some (0, out_version ++ out_head ++ out_types ++ out_rep).

(** ** Opening the device, lines 764-845 *)







(** ** The getters, lines 867-915

    They return [int]; [x], [y] and [pressure] are printed as [int] and
    [seconds] and [useconds] as [long], which the getters of the latter
    two convert. *)
Definition get_x (event : touchpad_event) : Z := x event.
Definition get_y (event : touchpad_event) : Z := y event.
Definition get_pressure (event : touchpad_event) : Z := pressure event.
Definition get_seconds (event : touchpad_event) : Z := to_int (seconds event).
Definition get_useconds (event : touchpad_event) : Z :=
  to_int (useconds event).

(** ** The sample as a function of the batch *)

#[global] Instance axis_eq_dec : EqDecision axis.
Proof. solve_decision. Defined.

(** The records of a batch that are of axis [a]. *)
Definition of_axis (a : axis) (l : list input_event) : list input_event :=
  filter (fun e => classify_axis (type e) (code e) = a) l.

(** The value of the last record of axis [a], [ABSENT] without one. *)
Definition last_value (a : axis) (l : list input_event) : Z :=
  match list.last (of_axis a l) with
  | Some e => value e
  | None => ABSENT
  end.

(** Case analysis on the comparisons that [classify_axis] makes. *)
Ltac classify_cases :=
  unfold classify_axis, EV_ABS, ABS_X, ABS_Y, ABS_PRESSURE;
  repeat match goal with
         | |- context [?a =? ?b] => destruct (Z.eqb_spec a b)
         end.

(** ** Tactics and an example device *)

(** Membership of a number in a list of constants, by evaluation. *)
Ltac not_listed :=
  let Hin := fresh "Hin" in
  intros Hin;
  repeat (apply elem_of_cons in Hin as [Hin|Hin];
          [first [discriminate Hin | vm_compute in Hin; lia]|]);
  by apply elem_of_nil in Hin.

Ltac listed := apply (bool_decide_unpack _); vm_compute; exact I.

(** Splits [Forall P (seqZ 0 n)], [n] a numeral, into its cases. *)
Ltac forall_cases :=
  lazymatch goal with
  | |- Forall _ ?l =>
      let l' := eval vm_compute in l in
      change l with l';
      repeat first [apply Forall_nil_2 | apply Forall_cons_2]
  end.

Ltac table_sizes :=
  cbv [SYN_MAX KEY_MAX REL_MAX ABS_MAX MSC_MAX SW_MAX LED_MAX SND_MAX REP_MAX
       FF_MAX FF_STATUS_MAX] in *.

(** A device with the event types [EV_SYN], [EV_KEY], [EV_ABS] and
    [EV_REP] and the axes [ABS_X], [ABS_Y] and [ABS_PRESSURE]. *)
Definition device_example : device :=
  mk_device 0 65537 [3; 2; 7; 1] "pad"
    (fun type =>
       if type =? 0 then 1048587 :: replicate 11 0
       else if type =? EV_ABS then 16777219 :: replicate 11 0
       else replicate 12 0)
    (fun axis => if axis =? 0 then [5; 0; 100; 0; 0; 3] else replicate 6 0)
    [250; 33].

(** A printed line is no line of another kind. *)
Ltac other_line :=
  repeat match goal with
         | H : _ ∈ [] |- _ => by apply elem_of_nil in H
         | H : _ ∈ _ :: _ |- _ => apply elem_of_cons in H as [H|H]
         | H : _ \/ _ |- _ => destruct H as [H|H]
         | H : exists _, _ |- _ => destruct H as [? H]
         | H : _ /\ _ |- _ => destruct H as [? H]
         | H : _ = _ |- _ => discriminate H
         end.

(** ** The code on concrete reads *)

Example fetch_ex1 :
  fetch_touchpad_event
    (read_of [ev_abs_x 512 10 500; ev_abs_y 300 10 500; ev_syn_report 10 500] 0)
    old_event
  = Some (0, mk_touchpad_event 512 300 (-1) 10 500).
Proof. vm_compute. reflexivity. Qed.

Example fetch_ex2 :
  fetch_touchpad_event (read_of [] 23) old_event = Some (1, old_event).
Proof. vm_compute. reflexivity. Qed.

Example fetch_ex3 :
  fetch_touchpad_event (mk_read (-1) (replicate 64 stale)) old_event
  = Some (1, old_event).
Proof. vm_compute. reflexivity. Qed.

Example fetch_ex4 :
  fetch_touchpad_event
    (read_of [ev_abs_pressure 40 10 500; ev_key 330 1 10 500;
              ev_abs_pressure 55 10 500; ev_syn_report 10 500] 7)
    old_event
  = Some (0, mk_touchpad_event (-1) (-1) 55 10 500).
Proof. vm_compute. reflexivity. Qed.

(** ** Lemmas on the conversions *)

Lemma to_int_id z : - 2 ^ 31 <= z < 2 ^ 31 -> to_int z = z.
Proof.
  intros Hz. unfold to_int.
  rewrite Z.mod_small; lia.
Qed.

Lemma to_size_t_id z : 0 <= z < 2 ^ 64 -> to_size_t z = z.
Proof. intros Hz. unfold to_size_t. apply Z.mod_small. exact Hz. Qed.

Lemma read_ok_int r : read_ok r -> to_int (read_ret r) = read_ret r.
Proof.
  intros [Hret _]. apply to_int_id.
  unfold sizeof_input_event, EV_BUFFER_LEN in Hret. lia.
Qed.

(** ** Lemmas on the loop body *)

Lemma reset_touchpad_event_blank event : reset_touchpad_event event = blank.
Proof. reflexivity. Qed.

Lemma loop_body_store i e event :
  loop_body i e event
  = store_axis e (if i =? 0 then stamp e event else event).
Proof.
  unfold loop_body, store_axis, classify_axis, stamp.
  destruct (type e =? EV_ABS); [|reflexivity].
  destruct (code e =? ABS_X); [reflexivity|].
  destruct (code e =? ABS_Y); [reflexivity|].
  destruct (code e =? ABS_PRESSURE); reflexivity.
Qed.

Lemma store_axis_seconds e event :
  seconds (store_axis e event) = seconds event.
Proof. unfold store_axis. destruct (classify_axis _ _); reflexivity. Qed.

Lemma store_axis_useconds e event :
  useconds (store_axis e event) = useconds event.
Proof. unfold store_axis. destruct (classify_axis _ _); reflexivity. Qed.

Lemma store_axis_same a e event :
  is_axis a e -> a <> AxisNone ->
  field a (store_axis e event) = Some (value e).
Proof.
  unfold is_axis, store_axis. intros -> Ha.
  destruct a; [reflexivity | reflexivity | reflexivity | congruence].
Qed.

Lemma store_axis_other a e event :
  ~ is_axis a e -> field a (store_axis e event) = field a event.
Proof.
  unfold is_axis, store_axis. intros Hne.
  destruct (classify_axis (type e) (code e)) eqn:Hc, a;
    try reflexivity; congruence.
Qed.

Lemma stamp_field a e event : field a (stamp e event) = field a event.
Proof. destruct a; reflexivity. Qed.

Lemma loop_body_field_same a i e event :
  is_axis a e -> a <> AxisNone ->
  field a (loop_body i e event) = Some (value e).
Proof. intros. rewrite loop_body_store. by apply store_axis_same. Qed.

Lemma loop_body_field_other a i e event :
  ~ is_axis a e -> field a (loop_body i e event) = field a event.
Proof.
  intros. rewrite loop_body_store, store_axis_other by done.
  destruct (i =? 0); [apply stamp_field | reflexivity].
Qed.

Lemma loop_body_seconds_later i e event :
  i <> 0 -> seconds (loop_body i e event) = seconds event
            /\ useconds (loop_body i e event) = useconds event.
Proof.
  intros Hi. rewrite loop_body_store, store_axis_seconds, store_axis_useconds.
  destruct (Z.eqb_spec i 0); [lia | done].
Qed.

Lemma loop_body_seconds_first e event :
  seconds (loop_body 0 e event) = tv_sec (time e)
  /\ useconds (loop_body 0 e event) = tv_usec (time e).
Proof.
  rewrite loop_body_store, store_axis_seconds, store_axis_useconds. done.
Qed.

(** ** The loop runs over the batch *)

(** Entered at [i] with enough fuel and the records in the buffer, the
    loop leaves at [n = rd / sizeof] having run the bodies of the records
    [i .. n-1] in order. *)
Lemma fetch_loop_run fuel : forall i rd ev event,
  0 <= rd < 2 ^ 64 ->
  0 <= i <= rd / sizeof_input_event ->
  (Z.to_nat (rd / sizeof_input_event) <= length ev)%nat ->
  (Z.to_nat (rd / sizeof_input_event - i) < fuel)%nat ->
  fetch_loop fuel i rd ev event
  = Some (rd / sizeof_input_event,
          decode_from i
            (drop (Z.to_nat i) (take (Z.to_nat (rd / sizeof_input_event)) ev))
            event).
Proof.
  induction fuel as [|fuel IH]; intros i rd ev event Hrd Hi Hlen Hfuel; [lia|].
  assert (Hn : rd / sizeof_input_event < 2 ^ 64).
  { unfold sizeof_input_event.
    apply Z.le_lt_trans with rd; [|lia].
    apply Z.div_le_upper_bound; lia. }
  cbn [fetch_loop].
  rewrite (to_size_t_id i), (to_size_t_id rd) by lia.
  destruct (Z.ltb_spec i (rd / sizeof_input_event)) as [Hlt|Hge].
  - destruct (lookup_lt_is_Some_2 ev (Z.to_nat i)) as [e He]; [lia|].
    rewrite He. cbn [mbind option_bind].
    rewrite (drop_S _ e).
    + cbn [decode_from]. rewrite IH by lia.
      replace (Z.to_nat (i + 1)) with (S (Z.to_nat i)) by lia. reflexivity.
    + rewrite lookup_take_lt by lia. exact He.
  - assert (i = rd / sizeof_input_event) as -> by lia.
    rewrite drop_ge by (rewrite length_take; lia). reflexivity.
Qed.

(** A successful call: the result is the decoding of the batch. *)
Lemma fetch_success r event :
  read_ok r -> sizeof_input_event <= read_ret r ->
  fetch_touchpad_event r event = Some (0, decode (batch r)).
Proof.
  intros Hok Hsz. pose proof Hok as [Hret Hlen].
  unfold fetch_touchpad_event. rewrite (read_ok_int r Hok).
  change (to_int sizeof_input_event) with sizeof_input_event.
  destruct (Z.ltb_spec (read_ret r) sizeof_input_event) as [?|_]; [lia|].
  unfold sizeof_input_event, EV_BUFFER_LEN in *.
  assert (0 <= read_ret r / 24 <= 64).
  { split; [apply Z.div_pos; lia|].
    apply Z.div_le_upper_bound; lia. }
  rewrite fetch_loop_run; unfold sizeof_input_event; try lia.
  reflexivity.
Qed.

(** A short read: the call returns 1 and the record is as it was. *)
Lemma fetch_short r event :
  read_ok r -> read_ret r < sizeof_input_event ->
  fetch_touchpad_event r event = Some (1, event).
Proof.
  intros Hok Hsz. unfold fetch_touchpad_event. rewrite (read_ok_int r Hok).
  change (to_int sizeof_input_event) with sizeof_input_event.
  destruct (Z.ltb_spec (read_ret r) sizeof_input_event); [reflexivity|lia].
Qed.

(** The batch is empty exactly when the read was short. *)
Lemma batch_nil r :
  read_ok r -> (batch r = [] <-> read_ret r < sizeof_input_event).
Proof.
  intros [Hret Hlen]. unfold batch, sizeof_input_event, EV_BUFFER_LEN in *.
  split.
  - intros Hnil. apply (f_equal length) in Hnil.
    rewrite length_take, Hlen in Hnil. cbn [length] in Hnil.
    destruct (Z.lt_ge_cases (read_ret r) 24) as [?|Hge]; [done|].
    assert (1 <= read_ret r / 24) by (apply Z.div_le_lower_bound; lia). lia.
  - intros Hlt.
    destruct (Z.lt_ge_cases (read_ret r) 0).
    + rewrite Z2Nat.nonpos; [done|].
      assert (read_ret r / 24 < 0) by (apply Z.div_lt_upper_bound; lia). lia.
    + rewrite Z.div_small by lia. done.
Qed.

Lemma batch_cons r e l :
  read_ok r -> batch r = e :: l -> sizeof_input_event <= read_ret r.
Proof.
  intros Hok Hb.
  destruct (Z.lt_ge_cases (read_ret r) sizeof_input_event) as [Hlt|?]; [|done].
  apply (batch_nil r Hok) in Hlt. congruence.
Qed.

(** ** Lemmas on the decoding *)

Lemma decode_from_app i l1 l2 event :
  decode_from i (l1 ++ l2) event
  = decode_from (i + Z.of_nat (length l1)) l2 (decode_from i l1 event).
Proof.
  revert i event. induction l1 as [|e l1 IH]; intros i event.
  - cbn. f_equal. lia.
  - cbn [app decode_from length]. rewrite IH. f_equal. lia.
Qed.

(** Records that are not of an axis leave its field alone. *)
Lemma decode_from_field_other a l : forall i event,
  Forall (fun e => ~ is_axis a e) l ->
  field a (decode_from i l event) = field a event.
Proof.
  induction l as [|e l IH]; intros i event Hall; [reflexivity|].
  inversion Hall as [|? ? He Hl]; subst.
  cbn [decode_from]. rewrite IH by done.
  by apply loop_body_field_other.
Qed.

(** The last record of an axis gives its field. *)
Lemma decode_from_field_last a pre e post i event :
  is_axis a e -> a <> AxisNone ->
  Forall (fun e' => ~ is_axis a e') post ->
  field a (decode_from i (pre ++ e :: post) event) = Some (value e).
Proof.
  intros He Ha Hpost. rewrite decode_from_app. cbn [decode_from].
  rewrite decode_from_field_other by done.
  by apply loop_body_field_same.
Qed.

(** Behind the first record the time stamp stays. *)
Lemma decode_from_seconds_later l : forall i event,
  0 < i ->
  seconds (decode_from i l event) = seconds event
  /\ useconds (decode_from i l event) = useconds event.
Proof.
  induction l as [|e l IH]; intros i event Hi; [done|].
  cbn [decode_from].
  destruct (IH (i + 1) (loop_body i e event)) as [-> ->]; [lia|].
  apply loop_body_seconds_later. lia.
Qed.

(** The time stamp of a decoded batch is that of its first record. *)
Lemma decode_seconds e l :
  seconds (decode (e :: l)) = tv_sec (time e)
  /\ useconds (decode (e :: l)) = tv_usec (time e).
Proof.
  unfold decode. cbn [decode_from].
  destruct (decode_from_seconds_later l (0 + 1) (loop_body 0 e blank)) as [-> ->];
    [lia|].
  apply loop_body_seconds_first.
Qed.

(** A record is determined by its five fields. *)
Lemma touchpad_event_eq (s : touchpad_event) vx vy vp vs vu :
  field AxisX s = Some vx -> field AxisY s = Some vy ->
  field AxisPressure s = Some vp ->
  seconds s = vs -> useconds s = vu ->
  s = mk_touchpad_event vx vy vp vs vu.
Proof.
  destruct s. cbn. intros. by simplify_eq.
Qed.

Lemma irrelevant_not_axis a l :
  a <> AxisNone ->
  Forall (fun e => ~ relevant e) l -> Forall (fun e => ~ is_axis a e) l.
Proof.
  intros Ha. apply Forall_impl. intros e He Hax. apply He.
  unfold relevant. unfold is_axis in Hax. congruence.
Qed.

(** A field of an axis of which the batch has no record is [ABSENT]. *)
Lemma decode_field_absent a l :
  a <> AxisNone -> Forall (fun e => ~ is_axis a e) l ->
  field a (decode l) = Some ABSENT.
Proof.
  intros Ha Hl. unfold decode. rewrite decode_from_field_other by done.
  destruct a; done.
Qed.

Lemma read_of_ok l extra :
  (length l <= EV_BUFFER_LEN)%nat ->
  -1 <= sizeof_input_event * Z.of_nat (length l) + extra
     <= sizeof_input_event * Z.of_nat EV_BUFFER_LEN ->
  read_ok (read_of l extra).
Proof.
  intros Hl Hret. split; [exact Hret|].
  cbn [read_of read_buf]. rewrite length_app, length_replicate. lia.
Qed.

(** ** The classification *)

(** C4: for every pair of a type and a code the classification is one of
    the four outcomes, each for exactly the pairs the code tests for:
    [AxisNone] for every pair that is not one of the three tracked ones,
    so for every key, sync and relative-motion event; and the loop body
    does for a record what its classification says, for [AxisNone]
    nothing. *)
Theorem classify_axis_total (type code : Z) :
  (classify_axis type code = AxisX <-> type = EV_ABS /\ code = ABS_X)
  /\ (classify_axis type code = AxisY <-> type = EV_ABS /\ code = ABS_Y)
  /\ (classify_axis type code = AxisPressure
      <-> type = EV_ABS /\ code = ABS_PRESSURE)
  /\ (classify_axis type code = AxisNone
      <-> ~ (type = EV_ABS
             /\ (code = ABS_X \/ code = ABS_Y \/ code = ABS_PRESSURE)))
  /\ classify_axis EV_KEY code = AxisNone
  /\ classify_axis EV_SYN code = AxisNone
  /\ classify_axis EV_REL code = AxisNone
  /\ (forall i t v event,
      loop_body i (mk_input_event t type code v) event
      = let event' :=
          if i =? 0 then stamp (mk_input_event t type code v) event
          else event in
        match classify_axis type code with
        | AxisX => set_x v event'
        | AxisY => set_y v event'
        | AxisPressure => set_pressure v event'
        | AxisNone => event'
        end).
Proof.
  split_and!.
  - classify_cases; split; intros; try discriminate; try reflexivity;
      first [lia | exfalso; lia].
  - classify_cases; split; intros; try discriminate; try reflexivity;
      first [lia | exfalso; lia].
  - classify_cases; split; intros; try discriminate; try reflexivity;
      first [lia | exfalso; lia].
  - classify_cases; split; intros; try discriminate; try reflexivity;
      first [lia | exfalso; lia].
  - reflexivity.
  - reflexivity.
  - reflexivity.
  - intros i t v event. rewrite loop_body_store. reflexivity.
Qed.

(** ** The batch reader *)

(** C1: when the batch has two records of one tracked axis, the first
    with value [v1] and a later one with value [v2], whatever lies
    between them, and no record of that axis behind the second, the call
    succeeds and the field of the axis holds [v2].  This holds for [x],
    [y] and [pressure] alike. *)
Theorem last_write_wins r event a pre e1 mid e2 post :
  read_ok r ->
  batch r = pre ++ e1 :: mid ++ e2 :: post ->
  a <> AxisNone -> is_axis a e1 -> is_axis a e2 ->
  Forall (fun e => ~ is_axis a e) post ->
  exists s,
    fetch_touchpad_event r event = Some (0, s)
    /\ field a s = Some (value e2).
Proof.
  intros Hok Hb Ha _ He2 Hpost.
  assert (Hsz : sizeof_input_event <= read_ret r).
  { destruct pre; eapply batch_cons; eauto. }
  eexists. split; [by apply fetch_success|].
  rewrite Hb. unfold decode.
  replace (pre ++ e1 :: mid ++ e2 :: post)
    with ((pre ++ e1 :: mid) ++ e2 :: post) by (by rewrite <- app_assoc).
  by apply decode_from_field_last.
Qed.

Lemma last_write_wins_witness :
  exists s,
    fetch_touchpad_event
      (read_of [ev_abs_x 1 10 500; ev_syn_report 10 500;
                ev_abs_x 2 10 501; ev_abs_y 3 10 501] 0) old_event
    = Some (0, s)
    /\ field AxisX s = Some 2.
Proof.
  apply (last_write_wins _ old_event AxisX
           [] (ev_abs_x 1 10 500) [ev_syn_report 10 500]
           (ev_abs_x 2 10 501) [ev_abs_y 3 10 501]).
  - apply read_of_ok; vm_compute; [lia | split; discriminate].
  - reflexivity.
  - discriminate.
  - reflexivity.
  - reflexivity.
  - repeat constructor. discriminate.
Defined.

(** C2: on a read that keeps the contract of [read(2)] the call returns,
    with 1 exactly when the read gave fewer bytes than one record has
    (zero and [-1] among them) and with 0 otherwise; when it returns 1
    the record is the one it was given. *)
Theorem short_read_iff r event :
  read_ok r ->
  exists ret s,
    fetch_touchpad_event r event = Some (ret, s)
    /\ (ret = 0 \/ ret = 1)
    /\ (ret = 1 <-> read_ret r < sizeof_input_event)
    /\ (ret = 0 <-> sizeof_input_event <= read_ret r)
    /\ (ret = 1 -> s = event).
Proof.
  intros Hok.
  destruct (Z.lt_ge_cases (read_ret r) sizeof_input_event) as [Hlt|Hge].
  - exists 1, event. rewrite fetch_short by done.
    split_and!; [done | by right | done | lia | done].
  - exists 0, (decode (batch r)). rewrite fetch_success by done.
    split_and!; [done | by left | lia | done | discriminate].
Qed.

Lemma short_read_iff_witness :
  exists ret s,
    fetch_touchpad_event (mk_read 0 (replicate 64 stale)) old_event
    = Some (ret, s)
    /\ (ret = 0 \/ ret = 1)
    /\ (ret = 1 <-> 0 < sizeof_input_event)
    /\ (ret = 0 <-> sizeof_input_event <= 0)
    /\ (ret = 1 -> s = old_event).
Proof.
  apply (short_read_iff (mk_read 0 (replicate 64 stale)) old_event).
  split; [vm_compute; split; discriminate | reflexivity].
Defined.

(** C3: when no record of the batch is of a tracked axis, the call
    succeeds with [x], [y] and [pressure] all [ABSENT] and with the time
    stamp of the first record of the batch, whatever that record is. *)
Theorem no_relevant_events r event e l :
  read_ok r ->
  batch r = e :: l ->
  Forall (fun e' => ~ relevant e') (e :: l) ->
  fetch_touchpad_event r event
  = Some (0, mk_touchpad_event ABSENT ABSENT ABSENT
               (tv_sec (time e)) (tv_usec (time e))).
Proof.
  intros Hok Hb Hall.
  rewrite fetch_success by eauto using batch_cons.
  rewrite Hb. do 2 f_equal.
  destruct (decode_seconds e l) as [Hs Hu].
  apply touchpad_event_eq; try done;
    apply decode_field_absent; try done;
    by apply irrelevant_not_axis.
Qed.

Lemma no_relevant_events_witness :
  fetch_touchpad_event
    (read_of [ev_key 330 1 3 4; ev_syn_report 5 6] 0) old_event
  = Some (0, mk_touchpad_event ABSENT ABSENT ABSENT 3 4).
Proof.
  apply (no_relevant_events _ old_event
           (ev_key 330 1 3 4) [ev_syn_report 5 6]).
  - apply read_of_ok; vm_compute; [lia | split; discriminate].
  - reflexivity.
  - repeat constructor; intros Hrel; apply Hrel; reflexivity.
Defined.

(** C5, as the code has it: when the batch has one record of the X axis,
    with value [v], and no other record of a tracked axis, the call
    succeeds with [x = v], [y] and [pressure] [ABSENT], and the time
    stamp of the first record of the batch, which is that of the X
    record when the X record comes first. *)
Theorem single_x_event r event e0 pre e post :
  read_ok r ->
  batch r = pre ++ e :: post ->
  head (batch r) = Some e0 ->
  is_axis AxisX e ->
  Forall (fun e' => ~ relevant e') pre ->
  Forall (fun e' => ~ relevant e') post ->
  fetch_touchpad_event r event
  = Some (0, mk_touchpad_event (value e) ABSENT ABSENT
               (tv_sec (time e0)) (tv_usec (time e0)))
  /\ (pre = [] -> e0 = e).
Proof.
  intros Hok Hb Hhd He Hpre Hpost.
  assert (Hsz : sizeof_input_event <= read_ret r).
  { destruct pre; eapply batch_cons; eauto. }
  split.
  - rewrite fetch_success by done.
    destruct (batch r) as [|e0' l] eqn:Hbr; [discriminate|].
    cbn in Hhd. injection Hhd as ->.
    destruct (decode_seconds e0 l) as [Hs Hu].
    do 2 f_equal. apply touchpad_event_eq; try done; rewrite Hb.
    + apply (decode_from_field_last AxisX); [done | done |].
      by apply irrelevant_not_axis.
    + apply decode_field_absent; [done|].
      apply Forall_app. split; [by apply irrelevant_not_axis|].
      constructor; [|by apply irrelevant_not_axis].
      unfold is_axis in *. congruence.
    + apply decode_field_absent; [done|].
      apply Forall_app. split; [by apply irrelevant_not_axis|].
      constructor; [|by apply irrelevant_not_axis].
      unfold is_axis in *. congruence.
  - intros ->. rewrite Hb in Hhd. cbn in Hhd. congruence.
Qed.

Lemma single_x_event_witness :
  fetch_touchpad_event
    (read_of [ev_syn_report 1 0; ev_abs_x 5 2 0; ev_syn_report 2 0] 0)
    old_event
  = Some (0, mk_touchpad_event 5 ABSENT ABSENT 1 0)
  /\ ([ev_syn_report 1 0] = [] -> ev_syn_report 1 0 = ev_abs_x 5 2 0).
Proof.
  apply (single_x_event _ old_event (ev_syn_report 1 0)
           [ev_syn_report 1 0] (ev_abs_x 5 2 0) [ev_syn_report 2 0]).
  - apply read_of_ok; vm_compute; [lia | split; discriminate].
  - reflexivity.
  - reflexivity.
  - reflexivity.
  - repeat constructor; intros Hrel; apply Hrel; reflexivity.
  - repeat constructor; intros Hrel; apply Hrel; reflexivity.
Defined.

(** C5 as stated fails.  Take two reports that come in one read: a key
    record and its sync report stamped (1, 0), then an X record with
    value 5 and its sync report stamped (2, 0).  The X record is the
    only one of a tracked axis, and the call gives the time stamp (1, 0)
    of the first record, not the (2, 0) of the X record. *)
Lemma single_x_event_counterexample :
  let b := [ev_key 330 1 1 0; ev_syn_report 1 0;
            ev_abs_x 5 2 0; ev_syn_report 2 0] in
  let r := read_of b 0 in
  read_ok r /\ batch r = b
  /\ fetch_touchpad_event r old_event
     = Some (0, mk_touchpad_event 5 ABSENT ABSENT 1 0)
  /\ ~ (forall r event pre e post v s us,
          read_ok r ->
          batch r = pre ++ e :: post ->
          is_axis AxisX e -> value e = v -> time e = mk_timeval s us ->
          Forall (fun e' => ~ relevant e') pre ->
          Forall (fun e' => ~ relevant e') post ->
          fetch_touchpad_event r event
          = Some (0, mk_touchpad_event v ABSENT ABSENT s us)).
Proof.
  assert (Hok : read_ok (read_of [ev_key 330 1 1 0; ev_syn_report 1 0;
                                  ev_abs_x 5 2 0; ev_syn_report 2 0] 0)).
  { apply read_of_ok; vm_compute; [lia | split; discriminate]. }
  cbv zeta. split_and!; [exact Hok | reflexivity | reflexivity |].
  intros Hclaim.
  assert (Hirr : forall l,
             l = [ev_key 330 1 1 0; ev_syn_report 1 0] \/ l = [ev_syn_report 2 0] ->
             Forall (fun e' => ~ relevant e') l).
  { intros l [-> | ->]; repeat constructor; intros Hrel; apply Hrel; reflexivity. }
  specialize (Hclaim _ old_event [ev_key 330 1 1 0; ev_syn_report 1 0]
                     (ev_abs_x 5 2 0) [ev_syn_report 2 0]
                     5 2 0 Hok eq_refl eq_refl eq_refl eq_refl
                     (Hirr _ (or_introl eq_refl)) (Hirr _ (or_intror eq_refl))).
  discriminate Hclaim.
Qed.

(** C6: for the batch of an X record with value 512, a Y record with
    value 300 and a sync report, all stamped (10, 500), the call succeeds
    with [x = 512], [y = 300], [pressure] [ABSENT] and the time (10,
    500); the sync report classifies as [AxisNone] and its loop body
    changes nothing. *)
Theorem concrete_scenario r event :
  read_ok r ->
  batch r = [ev_abs_x 512 10 500; ev_abs_y 300 10 500; ev_syn_report 10 500] ->
  fetch_touchpad_event r event
  = Some (0, mk_touchpad_event 512 300 ABSENT 10 500)
  /\ classify_axis EV_SYN SYN_REPORT = AxisNone
  /\ (forall s, loop_body 2 (ev_syn_report 10 500) s = s).
Proof.
  intros Hok Hb. split_and!.
  - rewrite fetch_success by eauto using batch_cons.
    rewrite Hb. reflexivity.
  - reflexivity.
  - intros s. reflexivity.
Qed.

Lemma concrete_scenario_witness :
  fetch_touchpad_event
    (read_of [ev_abs_x 512 10 500; ev_abs_y 300 10 500; ev_syn_report 10 500]
             0) old_event
  = Some (0, mk_touchpad_event 512 300 ABSENT 10 500)
  /\ classify_axis EV_SYN SYN_REPORT = AxisNone
  /\ (forall s, loop_body 2 (ev_syn_report 10 500) s = s).
Proof.
  apply (concrete_scenario _ old_event).
  - apply read_of_ok; vm_compute; [lia | split; discriminate].
  - reflexivity.
Defined.

(** C7: of two successful calls in a row on the same record, the second
    gives the result it gives from any record: nothing of the first call
    is carried over.  So a field of an axis of which the second batch has
    no record is [ABSENT] after the second call, whatever the first call
    stored in it. *)
Theorem stateless_across_calls r1 r2 event0 event1 event2 :
  read_ok r1 -> read_ok r2 ->
  fetch_touchpad_event r1 event0 = Some (0, event1) ->
  fetch_touchpad_event r2 event1 = Some (0, event2) ->
  (forall event', fetch_touchpad_event r2 event' = Some (0, event2))
  /\ (forall a, a <> AxisNone ->
        Forall (fun e => ~ is_axis a e) (batch r2) ->
        field a event2 = Some ABSENT).
Proof.
  intros _ Hok2 _ H2.
  destruct (Z.lt_ge_cases (read_ret r2) sizeof_input_event) as [Hlt|Hge].
  { rewrite fetch_short in H2 by done. discriminate. }
  rewrite fetch_success in H2 by done. injection H2 as <-.
  split.
  - intros event'. by apply fetch_success.
  - intros a Ha Hall. by apply decode_field_absent.
Qed.

Lemma stateless_across_calls_witness :
  (forall event',
     fetch_touchpad_event (read_of [ev_abs_y 7 11 0] 0) event'
     = Some (0, mk_touchpad_event ABSENT 7 ABSENT 11 0))
  /\ (forall a, a <> AxisNone ->
        Forall (fun e => ~ is_axis a e) (batch (read_of [ev_abs_y 7 11 0] 0)) ->
        field a (mk_touchpad_event ABSENT 7 ABSENT 11 0) = Some ABSENT).
Proof.
  apply (stateless_across_calls
           (read_of [ev_abs_x 100 10 0] 0) (read_of [ev_abs_y 7 11 0] 0)
           old_event (mk_touchpad_event 100 ABSENT ABSENT 10 0)).
  - apply read_of_ok; vm_compute; [lia | split; discriminate].
  - apply read_of_ok; vm_compute; [lia | split; discriminate].
  - reflexivity.
  - reflexivity.
Defined.

(** C8: [ABSENT] and an axis value of -1 cannot be told apart.  The batch
    of one X record with value -1 and the batch of one sync report, both
    stamped (10, 500), are different batches of well-formed records, the
    first with an X record and the second without, and from every record
    the call gives the same sample for both. *)
Theorem sentinel_collision :
  exists r1 r2,
    read_ok r1 /\ read_ok r2
    /\ Forall input_event_wf (batch r1) /\ Forall input_event_wf (batch r2)
    /\ batch r1 <> batch r2
    /\ (exists e, e ∈ batch r1 /\ is_axis AxisX e /\ value e = -1)
    /\ Forall (fun e => ~ is_axis AxisX e) (batch r2)
    /\ time <$> head (batch r1) = time <$> head (batch r2)
    /\ forall event,
         fetch_touchpad_event r1 event = fetch_touchpad_event r2 event
         /\ fetch_touchpad_event r1 event
            = Some (0, mk_touchpad_event ABSENT ABSENT ABSENT 10 500).
Proof.
  exists (read_of [ev_abs_x (-1) 10 500] 0), (read_of [ev_syn_report 10 500] 0).
  assert (Hok1 : read_ok (read_of [ev_abs_x (-1) 10 500] 0)).
  { apply read_of_ok; vm_compute; [lia | split; discriminate]. }
  assert (Hok2 : read_ok (read_of [ev_syn_report 10 500] 0)).
  { apply read_of_ok; vm_compute; [lia | split; discriminate]. }
  split_and!.
  - exact Hok1.
  - exact Hok2.
  - repeat constructor; vm_compute; discriminate.
  - repeat constructor; vm_compute; discriminate.
  - discriminate.
  - exists (ev_abs_x (-1) 10 500). split_and!; [|reflexivity|reflexivity].
    change (batch (read_of [ev_abs_x (-1) 10 500] 0))
      with [ev_abs_x (-1) 10 500].
    apply list_elem_of_here.
  - repeat constructor. discriminate.
  - reflexivity.
  - intros event.
    rewrite !fetch_success by (try assumption; vm_compute; discriminate).
    split; reflexivity.
Qed.

(** C9: when the call returns 1, the record after the call is the record
    before it, in all five fields. *)
Theorem short_read_keeps_record r event s :
  fetch_touchpad_event r event = Some (1, s) ->
  s = event
  /\ x s = x event /\ y s = y event /\ pressure s = pressure event
  /\ seconds s = seconds event /\ useconds s = useconds event.
Proof.
  unfold fetch_touchpad_event. intros Hf.
  assert (s = event) as ->; [|done].
  destruct (to_int (read_ret r) <? to_int sizeof_input_event).
  - congruence.
  - destruct (fetch_loop _ _ _ _ _); cbn in Hf; congruence.
Qed.

Lemma short_read_keeps_record_witness :
  fetch_touchpad_event (read_of [] 23) old_event = Some (1, old_event)
  /\ old_event = old_event
  /\ x old_event = x old_event /\ y old_event = y old_event
  /\ pressure old_event = pressure old_event
  /\ seconds old_event = seconds old_event
  /\ useconds old_event = useconds old_event.
Proof.
  split; [reflexivity|].
  apply (short_read_keeps_record (read_of [] 23) old_event old_event).
  reflexivity.
Defined.

(** C10: a successful call makes [read_ret / sizeof] iterations, rounded
    down, over the first that many records of the buffer, in order, and
    succeeds also when the byte count is not a multiple of the record
    size.  The bytes behind the last complete record play no part: a
    read with the same complete records gives the same result. *)
Theorem trailing_partial_record_discarded r event :
  read_ok r -> sizeof_input_event <= read_ret r ->
  fetch_loop (S EV_BUFFER_LEN) 0 (to_int (read_ret r)) (read_buf r)
             (reset_touchpad_event event)
  = Some (read_ret r / sizeof_input_event,
          decode (take (Z.to_nat (read_ret r / sizeof_input_event))
                       (read_buf r)))
  /\ fetch_touchpad_event r event
     = Some (0, decode (take (Z.to_nat (read_ret r / sizeof_input_event))
                             (read_buf r)))
  /\ (forall r', read_ok r' -> batch r' = batch r ->
        fetch_touchpad_event r' event = fetch_touchpad_event r event).
Proof.
  intros Hok Hsz. split_and!.
  - pose proof Hok as [Hret Hlen].
    rewrite (read_ok_int r Hok), reset_touchpad_event_blank.
    unfold sizeof_input_event, EV_BUFFER_LEN in *.
    assert (0 <= read_ret r / 24 <= 64).
    { split; [apply Z.div_pos; lia|]. apply Z.div_le_upper_bound; lia. }
    rewrite fetch_loop_run; unfold sizeof_input_event; try lia.
    reflexivity.
  - by apply fetch_success.
  - intros r' Hok' Hb.
    assert (sizeof_input_event <= read_ret r').
    { destruct (batch r) as [|e l] eqn:Hbr.
      - apply (batch_nil r Hok) in Hbr. lia.
      - by eapply batch_cons. }
    rewrite !fetch_success by done. by rewrite Hb.
Qed.

Lemma trailing_partial_record_discarded_witness :
  fetch_loop (S EV_BUFFER_LEN) 0 (to_int 61)
    (read_buf (read_of [ev_abs_x 512 10 500; ev_abs_y 300 10 500] 13))
    (reset_touchpad_event old_event)
  = Some (2, mk_touchpad_event 512 300 ABSENT 10 500)
  /\ fetch_touchpad_event
       (read_of [ev_abs_x 512 10 500; ev_abs_y 300 10 500] 13) old_event
     = Some (0, mk_touchpad_event 512 300 ABSENT 10 500)
  /\ (forall r', read_ok r' ->
        batch r'
        = batch (read_of [ev_abs_x 512 10 500; ev_abs_y 300 10 500] 13) ->
        fetch_touchpad_event r' old_event
        = fetch_touchpad_event
            (read_of [ev_abs_x 512 10 500; ev_abs_y 300 10 500] 13) old_event).
Proof.
  apply (trailing_partial_record_discarded
           (read_of [ev_abs_x 512 10 500; ev_abs_y 300 10 500] 13) old_event).
  - apply read_of_ok; vm_compute; [lia | split; discriminate].
  - vm_compute. discriminate.
Defined.

(** ** The bitmap macros *)

Lemma NBITS_eq x : 1 <= x < 2 ^ 31 -> NBITS x = (x - 1) / BITS_PER_LONG + 1.
Proof.
  intros Hx. unfold NBITS, BITS_PER_LONG.
  rewrite to_int_id by lia. rewrite (to_size_t_id (x - 1)) by lia.
  apply to_size_t_id.
  assert (0 <= (x - 1) / (8 * 8) <= x - 1).
  { split; [apply Z.div_pos; lia|]. apply Z.div_le_upper_bound; lia. }
  lia.
Qed.

Lemma LONG_OFF bit :
  0 <= bit < 2 ^ 64 ->
  LONG bit = bit / BITS_PER_LONG /\ OFF bit = bit mod BITS_PER_LONG.
Proof.
  intros Hb. unfold LONG, OFF. by rewrite to_size_t_id.
Qed.

Lemma land_shiftr_1 w k :
  0 <= k -> Z.land (Z.shiftr w k) 1 = Z.b2z (Z.testbit w k).
Proof.
  intros Hk. change 1 with (Z.ones 1).
  rewrite Z.land_ones by lia. change (2 ^ 1) with 2.
  rewrite <- Z.bit0_mod, Z.shiftr_spec by lia. reflexivity.
Qed.

Lemma test_bit_01 bit (array : list Z) b :
  test_bit bit array = Some b -> b = 0 \/ b = 1.
Proof.
  unfold test_bit. destruct (array !! Z.to_nat (LONG bit)) as [w|]; [|done].
  cbn [mbind option_bind]. intros [= <-].
  rewrite land_shiftr_1.
  - destruct (Z.testbit w (OFF bit)); [by right | by left].
  - unfold OFF, BITS_PER_LONG. apply Z.mod_pos_bound. lia.
Qed.

Lemma test_bit_in_array x bit (array : list Z) :
  1 <= x < 2 ^ 31 -> 0 <= bit < x ->
  Z.of_nat (length array) = NBITS x ->
  exists b, test_bit bit array = Some b /\ (b = 0 \/ b = 1).
Proof.
  intros Hx Hbit Hlen. rewrite (NBITS_eq x Hx) in Hlen.
  unfold BITS_PER_LONG in Hlen. change (8 * 8) with 64 in Hlen.
  assert (Hsome : is_Some (test_bit bit array)).
  { unfold test_bit.
    destruct (LONG_OFF bit ltac:(lia)) as [-> _].
    unfold BITS_PER_LONG. change (8 * 8) with 64.
    assert (0 <= bit / 64 <= (x - 1) / 64).
    { split; [apply Z.div_pos; lia|]. apply Z.div_le_mono; lia. }
    destruct (lookup_lt_is_Some_2 array (Z.to_nat (bit / 64))) as [w ->];
      [lia|]. by eexists. }
  destruct Hsome as [b Hb]. exists b. split; [done|].
  by eapply test_bit_01.
Qed.

(** An array of [NBITS(x)] words holds every bit below [x], and no
    shorter array does: [test_bit] on a bit below [x] stays inside an
    array of that size, and on bit [x - 1] leaves any shorter one. *)
Theorem NBITS_holds_bits x bit (array : list Z) :
  1 <= x < 2 ^ 31 -> 0 <= bit < x ->
  Z.of_nat (length array) = NBITS x ->
  is_Some (test_bit bit array)
  /\ BITS_PER_LONG * (NBITS x - 1) < x <= BITS_PER_LONG * NBITS x
  /\ (forall shorter : list Z,
        Z.of_nat (length shorter) < NBITS x ->
        test_bit (x - 1) shorter = None).
Proof.
  intros Hx Hbit Hlen. rewrite (NBITS_eq x Hx) in *.
  unfold BITS_PER_LONG in *. change (8 * 8) with 64 in *.
  pose proof (Z.div_mod (x - 1) 64 ltac:(lia)) as Hdm.
  pose proof (Z.mod_pos_bound (x - 1) 64 ltac:(lia)) as Hm.
  split_and!.
  - unfold test_bit.
    destruct (LONG_OFF bit ltac:(lia)) as [-> _].
    unfold BITS_PER_LONG. change (8 * 8) with 64.
    assert (0 <= bit / 64 <= (x - 1) / 64).
    { split; [apply Z.div_pos; lia|]. apply Z.div_le_mono; lia. }
    destruct (lookup_lt_is_Some_2 array (Z.to_nat (bit / 64))) as [w ->];
      [lia|]. by eexists.
  - lia.
  - lia.
  - intros shorter Hshort. unfold test_bit.
    destruct (LONG_OFF (x - 1) ltac:(lia)) as [-> _].
    unfold BITS_PER_LONG. change (8 * 8) with 64.
    assert (0 <= (x - 1) / 64) by (apply Z.div_pos; lia).
    rewrite (lookup_ge_None_2 shorter) by lia. reflexivity.
Qed.

Lemma NBITS_holds_bits_witness :
  is_Some (test_bit 766 (replicate 12 0))
  /\ BITS_PER_LONG * (NBITS KEY_MAX - 1) < KEY_MAX
     <= BITS_PER_LONG * NBITS KEY_MAX
  /\ (forall shorter : list Z,
        Z.of_nat (length shorter) < NBITS KEY_MAX ->
        test_bit (KEY_MAX - 1) shorter = None).
Proof.
  apply (NBITS_holds_bits KEY_MAX 766 (replicate 12 0)).
  - vm_compute. split; [discriminate | reflexivity].
  - vm_compute. split; [discriminate | reflexivity].
  - reflexivity.
Defined.

Lemma bitmap_value_testbit w v bit :
  0 <= w < 2 ^ 64 -> 0 <= bit ->
  Z.testbit (w + 2 ^ 64 * v) bit
  = if bit <? 64 then Z.testbit w bit else Z.testbit v (bit - 64).
Proof.
  intros Hw Hb.
  replace (w + 2 ^ 64 * v) with (w + v * 2 ^ 64) by lia.
  destruct (Z.ltb_spec bit 64).
  - rewrite <- (Z.mod_pow2_bits_low (w + v * 2 ^ 64) 64 bit) by lia.
    rewrite Z_mod_plus_full, Z.mod_small by lia.
    reflexivity.
  - replace bit with ((bit - 64) + 64) at 1 by lia.
    rewrite <- Z.div_pow2_bits by lia.
    rewrite Z.div_add by lia.
    rewrite (Z.div_small w) by lia. reflexivity.
Qed.

(** [test_bit] reads the bit of that number of the bitmap that the
    words of the array make up, the first word lowest; behind the last
    word it leaves the array. *)
Theorem test_bit_bitmap (array : list Z) : forall bit,
  Forall (fun w => 0 <= w < 2 ^ 64) array ->
  0 <= bit < 2 ^ 64 ->
  test_bit bit array
  = if bit <? BITS_PER_LONG * Z.of_nat (length array)
    then Some (Z.b2z (Z.testbit (bitmap_value array) bit))
    else None.
Proof.
  unfold BITS_PER_LONG. change (8 * 8) with 64.
  induction array as [|w array IH]; intros bit Hall Hbit.
  - cbn [length]. destruct (Z.ltb_spec bit (64 * Z.of_nat 0)); [lia|].
    unfold test_bit. by rewrite lookup_nil.
  - inversion Hall as [|? ? Hw Hall']; subst.
    cbn [bitmap_value]. unfold BITS_PER_LONG. change (8 * 8) with 64.
    rewrite bitmap_value_testbit by lia.
    destruct (Z.ltb_spec bit 64) as [Hlow|Hhigh].
    + destruct (Z.ltb_spec bit (64 * Z.of_nat (length (w :: array))));
        [|cbn [length] in *; lia].
      unfold test_bit. destruct (LONG_OFF bit Hbit) as [-> ->].
      unfold BITS_PER_LONG. change (8 * 8) with 64.
      rewrite Z.div_small, Z.mod_small by lia.
      change (Z.to_nat 0) with 0%nat. cbn [lookup list_lookup mbind option_bind].
      by rewrite land_shiftr_1 by lia.
    + specialize (IH (bit - 64) Hall' ltac:(lia)).
      assert (Hstep : test_bit bit (w :: array) = test_bit (bit - 64) array).
      { unfold test_bit.
        destruct (LONG_OFF bit Hbit) as [-> ->].
        destruct (LONG_OFF (bit - 64) ltac:(lia)) as [-> ->].
        unfold BITS_PER_LONG. change (8 * 8) with 64.
        assert (Hd : bit / 64 = (bit - 64) / 64 + 1).
        { rewrite <- Z.div_add by lia. f_equal. lia. }
        assert (Hm : bit mod 64 = (bit - 64) mod 64).
        { rewrite <- (Z_mod_plus_full (bit - 64) 1 64). f_equal. lia. }
        rewrite Hd, Hm.
        assert (0 <= (bit - 64) / 64) by (apply Z.div_pos; lia).
        replace (Z.to_nat ((bit - 64) / 64 + 1))
          with (S (Z.to_nat ((bit - 64) / 64))) by lia.
        reflexivity. }
      rewrite Hstep, IH. cbn [length].
      destruct (Z.ltb_spec (bit - 64) (64 * Z.of_nat (length array)));
        destruct (Z.ltb_spec bit (64 * Z.of_nat (S (length array))));
        try lia; reflexivity.
Qed.

Lemma test_bit_bitmap_witness :
  test_bit 65 [0; 2]
  = if 65 <? BITS_PER_LONG * Z.of_nat (length [0; 2])
    then Some (Z.b2z (Z.testbit (bitmap_value [0; 2]) 65))
    else None.
Proof.
  apply (test_bit_bitmap [0; 2] 65).
  - repeat constructor; vm_compute; discriminate.
  - vm_compute. split; [discriminate | reflexivity].
Defined.

(** ** The name tables *)

Lemma to_uint_id z : 0 <= z < 2 ^ 32 -> to_uint z = z.
Proof. intros Hz. unfold to_uint. by apply Z.mod_small. Qed.

Lemma small_cases (P : Z -> Prop) (n : nat) (z : Z) :
  0 <= z < Z.of_nat n ->
  Forall P (seqZ 0 (Z.of_nat n)) -> P z.
Proof.
  intros Hz Hall. rewrite list.Forall_forall in Hall. apply Hall.
  apply elem_of_seqZ. lia.
Qed.

Lemma typename_total (type : Z) :
  0 <= type ->
  exists name,
    typename type = Some name
    /\ (name = "?"%string
        <-> type ∉ [EV_SYN; EV_KEY; EV_REL; EV_ABS; EV_MSC; EV_SW; EV_LED;
                    EV_SND; EV_REP; EV_FF; EV_PWR; EV_FF_STATUS]).
Proof.
  intros Hty. destruct (Z.le_gt_cases type 31) as [Hle|Hgt].
  - revert type Hty Hle.
    assert (Hall : Forall (fun type =>
              exists name,
                typename type = Some name
                /\ (name = "?"%string
                    <-> type ∉ [EV_SYN; EV_KEY; EV_REL; EV_ABS; EV_MSC; EV_SW;
                                EV_LED; EV_SND; EV_REP; EV_FF; EV_PWR;
                                EV_FF_STATUS]))
              (seqZ 0 (Z.of_nat 32))).
    { forall_cases;
        (eexists; split; [vm_compute; reflexivity|]);
        (split;
         [ first [ discriminate | intros _; not_listed ]
         | first [ reflexivity | intros Hn; exfalso; apply Hn; listed ] ]). }
    intros type Hty Hle.
    exact (small_cases _ 32 type ltac:(cbn; lia) Hall).
  - exists "?"%string. split.
    + unfold typename. rewrite to_uint_id by (vm_compute; split; congruence).
      unfold EV_MAX. destruct (Z.leb_spec type 31); [lia | reflexivity].
    + split; [intros _; not_listed | reflexivity].
Qed.

(** [typename] gives a name for every type and never reads outside
    [events]; the name is ["?"] exactly for the types that are not among
    the twelve named in the table, those above [EV_MAX] included. *)
Theorem typename_never_null (type : Z) :
  0 <= type ->
  exists name,
    typename type = Some name
    /\ (name = "?"%string
        <-> type ∉ [EV_SYN; EV_KEY; EV_REL; EV_ABS; EV_MSC; EV_SW; EV_LED;
                    EV_SND; EV_REP; EV_FF; EV_PWR; EV_FF_STATUS]).
Proof. apply typename_total. Qed.

Lemma typename_never_null_witness :
  exists name,
    typename EV_ABS = Some name
    /\ (name = "?"%string
        <-> EV_ABS ∉ [EV_SYN; EV_KEY; EV_REL; EV_ABS; EV_MSC; EV_SW; EV_LED;
                      EV_SND; EV_REP; EV_FF; EV_PWR; EV_FF_STATUS]).
Proof.
  apply (typename_never_null EV_ABS). vm_compute. discriminate.
Defined.

Lemma codename_table T type code max table :
  0 <= type <= 31 -> 0 <= code ->
  maxval !! Z.to_nat type = Some max ->
  names T !! Z.to_nat type = Some (Some table) ->
  0 <= max < Z.of_nat (length table) -> max < 2 ^ 32 ->
  exists name,
    codename T type code = Some name
    /\ (max < code -> name = "?"%string).
Proof.
  intros Hty Hcode Hmax Htable Hlen Hmax32. unfold codename.
  rewrite to_uint_id by (vm_compute; split; congruence). unfold EV_MAX.
  destruct (Z.leb_spec type 31); [|lia].
  rewrite Hmax. cbn [mbind option_bind]. rewrite to_uint_id by lia.
  destruct (Z.leb_spec code max).
  - rewrite Htable. cbn [mbind option_bind].
    destruct (lookup_lt_is_Some_2 table (Z.to_nat code)) as [entry ->]; [lia|].
    cbn [mbind option_bind]. destruct entry; eexists; (split; [done | lia]).
  - by eexists.
Qed.

Lemma codename_no_table T type code max :
  0 <= type <= 31 ->
  maxval !! Z.to_nat type = Some max ->
  names T !! Z.to_nat type = Some None ->
  codename T type code = Some "?"%string.
Proof.
  intros Hty Hmax Htable. unfold codename.
  rewrite to_uint_id by (vm_compute; split; congruence). unfold EV_MAX.
  destruct (Z.leb_spec type 31); [|lia].
  rewrite Hmax. cbn [mbind option_bind].
  destruct (code <=? to_uint max); [|reflexivity].
  rewrite Htable. reflexivity.
Qed.

Lemma codename_total T (type code : Z) :
  code_names_declared T ->
  0 <= type -> 0 <= code ->
  exists name,
    codename T type code = Some name
    /\ (type ∉ [EV_SYN; EV_KEY; EV_REL; EV_ABS; EV_MSC; EV_SW; EV_LED;
                EV_SND; EV_REP; EV_FF; EV_FF_STATUS] ->
        name = "?"%string).
Proof.
  intros Hdecl Hty Hcode.
  destruct (Z.le_gt_cases type 31) as [Hle|Hgt].
  - revert code Hcode.
    assert (Hall : Forall (fun type =>
              forall code, 0 <= code ->
              exists name,
                codename T type code = Some name
                /\ (type ∉ [EV_SYN; EV_KEY; EV_REL; EV_ABS; EV_MSC; EV_SW;
                            EV_LED; EV_SND; EV_REP; EV_FF; EV_FF_STATUS] ->
                    name = "?"%string))
              (seqZ 0 (Z.of_nat 32))).
    { destruct Hdecl as (?&?&?&?&?&?&?&?&?&?).
      unfold declared_size in *.
      forall_cases; intros code Hcode;
        lazymatch goal with
        | |- exists name, codename _ ?ty _ = _ /\ _ =>
            first
              [ exists "?"%string; split; [|done];
                eapply (codename_no_table T ty);
                [lia | reflexivity | reflexivity]
              | edestruct (codename_table T ty code) as [name [Hname _]];
                [ lia | exact Hcode | reflexivity | reflexivity
                | first [ vm_compute; done | cbn [fst snd]; table_sizes; lia ]
                | vm_compute; done
                | exists name; split; [exact Hname|];
                  intros Hn; exfalso; apply Hn; listed ] ]
        end. }
    exact (small_cases _ 32 type ltac:(cbn; lia) Hall).
  - exists "?"%string. split; [|done].
    unfold codename. rewrite to_uint_id by (vm_compute; split; congruence).
    unfold EV_MAX. destruct (Z.leb_spec type 31); [lia | reflexivity].
Qed.

(** With tables of the declared sizes, [codename] gives a name for every
    type and code and never reads outside a table.  The name is ["?"]
    for every code of a type that has no table of code names: the
    types above [EV_MAX], [EV_PWR] and the types without a name, for
    which the -1 of [maxval] admits every code. *)
Theorem codename_never_null T (type code : Z) :
  code_names_declared T ->
  0 <= type -> 0 <= code ->
  exists name,
    codename T type code = Some name
    /\ (type ∉ [EV_SYN; EV_KEY; EV_REL; EV_ABS; EV_MSC; EV_SW; EV_LED;
                EV_SND; EV_REP; EV_FF; EV_FF_STATUS] ->
        name = "?"%string).
Proof. apply codename_total. Qed.

Lemma codename_never_null_witness :
  exists name,
    codename empty_code_names EV_PWR 5 = Some name
    /\ (EV_PWR ∉ [EV_SYN; EV_KEY; EV_REL; EV_ABS; EV_MSC; EV_SW; EV_LED;
                  EV_SND; EV_REP; EV_FF; EV_FF_STATUS] ->
        name = "?"%string).
Proof.
  apply (codename_never_null empty_code_names EV_PWR 5).
  - repeat split.
  - vm_compute. discriminate.
  - vm_compute. discriminate.
Defined.

(** The codes of [EV_SYN] are named from [events], the table of the
    event types: up to [SYN_MAX] the name of a sync code is the name of
    the event type of that number, above it ["?"]. *)
Theorem codename_syn_is_typename T (code : Z) :
  0 <= code ->
  codename T EV_SYN code
  = if code <=? SYN_MAX then typename code else Some "?"%string.
Proof.
  intros Hcode. unfold codename, typename.
  rewrite to_uint_id by (vm_compute; split; congruence).
  change (EV_SYN <=? EV_MAX) with true. cbv iota.
  change (maxval !! Z.to_nat EV_SYN) with (Some SYN_MAX).
  cbn [mbind option_bind].
  rewrite to_uint_id by (vm_compute; split; congruence).
  unfold SYN_MAX, EV_MAX.
  destruct (Z.leb_spec code 15); [|reflexivity].
  destruct (Z.leb_spec code 31); [|lia].
  change (names T !! Z.to_nat EV_SYN) with (Some (Some events)).
  cbn [mbind option_bind].
  destruct (events !! Z.to_nat code) as [[name|]|]; reflexivity.
Qed.

Lemma codename_syn_is_typename_witness :
  codename empty_code_names EV_SYN 2
  = if 2 <=? SYN_MAX then typename 2 else Some "?"%string.
Proof.
  apply (codename_syn_is_typename empty_code_names 2).
  vm_compute. discriminate.
Defined.

(** ** Choosing the device *)

Lemma nat_of_ascii_inj (a b : Ascii.ascii) :
  Z.of_nat (Ascii.nat_of_ascii a) = Z.of_nat (Ascii.nat_of_ascii b) -> a = b.
Proof.
  intros Hab. apply Nat2Z.inj in Hab.
  rewrite <- (Ascii.ascii_nat_embedding a), <- (Ascii.ascii_nat_embedding b).
  by rewrite Hab.
Qed.

(** For a string [p] without a zero character, [strncmp] over the
    length of [p] is 0 exactly on the strings that begin with [p]. *)
Lemma strncmp_prefix (p : string) : forall d : string,
  (forall c, c ∈ String.list_ascii_of_string p -> Ascii.nat_of_ascii c <> 0%nat) ->
  strncmp p d (String.length p) = 0 <-> exists rest, d = (p +:+ rest)%string.
Proof.
  induction p as [|c p IH]; intros d Hnz.
  - cbn. split; [intros _; by exists d | done].
  - cbn [String.length strncmp char_at_head behind_head].
    assert (Hc : Z.of_nat (Ascii.nat_of_ascii c) <> 0).
    { intros Hz. apply (Hnz c); [cbn; apply list_elem_of_here | lia]. }
    destruct d as [|c' d]; cbn [char_at_head behind_head].
    + destruct (Z.eqb_spec (Z.of_nat (Ascii.nat_of_ascii c)) 0); [lia|].
      split; [lia | intros [rest Hrest]; discriminate].
    + destruct (Z.eqb_spec (Z.of_nat (Ascii.nat_of_ascii c))
                           (Z.of_nat (Ascii.nat_of_ascii c'))) as [Heq|Hne].
      * apply nat_of_ascii_inj in Heq as <-.
        destruct (Z.eqb_spec (Z.of_nat (Ascii.nat_of_ascii c)) 0); [lia|].
        rewrite IH.
        -- split; intros [rest Hrest]; exists rest.
           ++ cbn [String.append]. by rewrite Hrest.
           ++ cbn [String.append] in Hrest. by injection Hrest.
        -- intros c0 Hc0. apply Hnz. cbn. by apply list_elem_of_further.
      * split; [lia|]. intros [rest Hrest]. cbn [String.append] in Hrest.
        injection Hrest as <- _. congruence.
Qed.

Lemma prefix_app (p : string) : forall d : string,
  String.prefix p d = true <-> exists rest, d = (p +:+ rest)%string.
Proof.
  induction p as [|c p IH]; intros d.
  - cbn. split; [intros _; by exists d | by destruct d].
  - destruct d as [|c' d]; cbn.
    + split; [discriminate | intros [rest Hrest]; discriminate].
    + destruct (Ascii.ascii_dec c c') as [<-|Hne].
      * rewrite IH. split; intros [rest Hrest]; exists rest.
        -- by rewrite Hrest.
        -- by injection Hrest.
      * split; [discriminate|]. intros [rest Hrest].
        injection Hrest as <- _. congruence.
Qed.

Lemma is_event_device_spec (d_name : string) :
  (is_event_device d_name = 1
   <-> exists rest, d_name = ("event" +:+ rest)%string)
  /\ (is_event_device d_name = 0
      <-> ~ exists rest, d_name = ("event" +:+ rest)%string)
  /\ (is_event_device d_name <> 0 <-> String.prefix "event" d_name = true).
Proof.
  assert (Hcmp : strncmp EVENT_DEV_NAME d_name 5 = 0
                 <-> exists rest, d_name = ("event" +:+ rest)%string).
  { apply (strncmp_prefix "event").
    intros c Hc. cbn in Hc.
    repeat (apply elem_of_cons in Hc as [->|Hc]; [discriminate|]).
    by apply elem_of_nil in Hc. }
  unfold is_event_device. rewrite prefix_app, <- Hcmp.
  destruct (Z.eqb_spec (strncmp EVENT_DEV_NAME d_name 5) 0) as [->|Hne];
    split_and!; split; intros; try done.
Qed.

(** [is_event_device] is 1 on the names that begin with "event",
    whatever follows, and 0 on all others, the names shorter than five
    characters among them. *)
Theorem is_event_device_prefix (d_name : string) :
  (is_event_device d_name = 1
   <-> exists rest, d_name = ("event" +:+ rest)%string)
  /\ (is_event_device d_name = 0
      <-> ~ exists rest, d_name = ("event" +:+ rest)%string)
  /\ (is_event_device d_name <> 0 <-> String.prefix "event" d_name = true).
Proof. apply is_event_device_spec. Qed.

(** [scan_devices] gives a file name exactly when the number entered is
    at least 0 and below the number of directory entries that begin
    with "event", and [NULL] otherwise, so also when the directory
    cannot be read or has no such entry.  The name is
    "/dev/input/event" followed by the number entered: the number is
    checked against how many entries there are, not against their
    names.  The file name part of the result is a name that
    [is_event_device] accepts. *)
Theorem scan_devices_by_count (dir : option (list string)) (devnum : Z) :
  scan_devices dir devnum
  = match dir with
    | None => None
    | Some entries =>
        let ndev :=
          Z.of_nat (length (filter (fun d => String.prefix "event" d = true)
                                   entries)) in
        if (0 <=? devnum) && (devnum <? ndev)
        then Some ("/dev/input/event" +:+ pretty devnum)%string
        else None
    end
  /\ is_event_device ("event" +:+ pretty devnum) = 1.
Proof.
  split.
  - destruct dir as [entries|]; [|reflexivity].
    unfold scan_devices, scandir_count.
    rewrite (list_filter_iff _ (fun d => String.prefix "event" d = true))
      by (intros d; apply is_event_device_spec).
    cbv zeta.
    set (ndev := Z.of_nat (length (filter _ entries))).
    destruct (Z.leb_spec ndev 0), (Z.leb_spec 0 devnum),
      (Z.ltb_spec devnum ndev), (Z.geb_spec devnum ndev),
      (Z.ltb_spec devnum 0); try lia; reflexivity.
  - apply is_event_device_spec. by eexists.
Qed.

(** ** Printing the device information *)

Lemma for_emit_is_Some fuel : forall i bound body,
  (Z.to_nat (bound - i) < fuel)%nat ->
  (forall j, i <= j < bound -> is_Some (body j)) ->
  is_Some (for_emit fuel i bound body).
Proof.
  induction fuel as [|fuel IH]; intros i bound body Hfuel Hbody; [lia|].
  cbn [for_emit]. destruct (Z.ltb_spec i bound); [|by eexists].
  destruct (Hbody i ltac:(lia)) as [out ->]. cbn [mbind option_bind].
  destruct (IH (i + 1) bound body) as [rest ->]; [lia | | by eexists].
  intros j Hj. apply Hbody. lia.
Qed.

Lemma for_emit_elem fuel : forall i bound body out p,
  for_emit fuel i bound body = Some out ->
  p ∈ out <-> exists j l, i <= j < bound /\ body j = Some l /\ p ∈ l.
Proof.
  induction fuel as [|fuel IH]; intros i bound body out p Hrun; [done|].
  cbn [for_emit] in Hrun. destruct (Z.ltb_spec i bound).
  - destruct (body i) as [l0|] eqn:Hl0; [|done].
    cbn [mbind option_bind] in Hrun.
    destruct (for_emit fuel (i + 1) bound body) as [rest|] eqn:Hrest; [|done].
    cbn [mbind option_bind] in Hrun. injection Hrun as <-.
    rewrite elem_of_app, (IH _ _ _ _ p Hrest). split.
    + intros [Hp | (j & l & Hj & Hl & Hp)].
      * exists i, l0. split_and!; [lia | lia | done | done].
      * exists j, l. split_and!; [lia | lia | done | done].
    + intros (j & l & Hj & Hl & Hp).
      destruct (decide (j = i)) as [->|Hne].
      * left. congruence.
      * right. exists j, l. split_and!; [lia | lia | done | done].
  - injection Hrun as <-. split; [by intros ?%elem_of_nil|].
    intros (j & l & Hj & _). lia.
Qed.

Lemma print_absdata_line_elem abs k l p :
  print_absdata_line abs k = Some l -> p ∈ l ->
  exists label a,
    p = PAbs label a /\ abs !! Z.to_nat k = Some a
    /\ absval !! Z.to_nat k = Some label /\ (k < 3 \/ a <> 0).
Proof.
  unfold print_absdata_line. intros Hl Hp.
  destruct (abs !! Z.to_nat k) as [a|]; [|done].
  cbn [mbind option_bind] in Hl.
  destruct ((k <? 3) || negb (a =? 0)) eqn:Hcond.
  - destruct (absval !! Z.to_nat k) as [label|]; [|done].
    injection Hl as <-. apply list_elem_of_singleton in Hp as ->.
    exists label, a. split_and!; try done.
    apply orb_true_iff in Hcond as [Hk|Ha]; [left; lia | right].
    apply negb_true_iff in Ha. lia.
  - injection Hl as <-. by apply elem_of_nil in Hp.
Qed.

Lemma print_absdata_is_Some abs :
  length abs = 6%nat -> is_Some (print_absdata abs).
Proof.
  intros Hlen. apply for_emit_is_Some; [cbn; lia|].
  intros k Hk. unfold print_absdata_line.
  destruct (lookup_lt_is_Some_2 abs (Z.to_nat k)) as [a ->]; [lia|].
  cbn [mbind option_bind]. destruct ((k <? 3) || negb (a =? 0)); [|by eexists].
  destruct (lookup_lt_is_Some_2 absval (Z.to_nat k)) as [label ->];
    [cbn; lia | by eexists].
Qed.

Lemma print_repdata_is_Some T rep :
  code_names_declared T -> length rep = 2%nat ->
  is_Some (print_repdata T rep).
Proof.
  intros (_&_&_&_&_&Hrep&_) Hlen. unfold declared_size, REP_MAX in Hrep.
  apply for_emit_is_Some; [cbn; lia|].
  intros i Hi. unfold REP_MAX in Hi. unfold print_repdata_line.
  change (names T !! Z.to_nat EV_REP) with (Some (Some (repeats T))).
  cbn [mbind option_bind].
  destruct (lookup_lt_is_Some_2 (repeats T) (Z.to_nat i)) as [entry ->]; [lia|].
  cbn [mbind option_bind].
  destruct (lookup_lt_is_Some_2 rep (Z.to_nat i)) as [v ->]; [lia|].
  destruct entry; by eexists.
Qed.

Lemma print_repdata_elem T rep out p :
  print_repdata T rep = Some out -> p ∈ out ->
  (exists i name, p = PRepeatCode i name) \/ (exists v, p = PRepeatValue v).
Proof.
  intros Hout Hp. unfold print_repdata in Hout.
  apply (for_emit_elem _ _ _ _ _ p Hout) in Hp as (i & l & _ & Hl & Hp).
  unfold print_repdata_line in Hl.
  destruct (names T !! Z.to_nat EV_REP) as [table|]; [|done].
  cbn [mbind option_bind] in Hl.
  destruct (match table with Some _ => _ | None => _ end) as [name|]; [|done].
  cbn [mbind option_bind] in Hl.
  destruct (rep !! Z.to_nat i) as [v|]; [|done].
  injection Hl as <-.
  apply elem_of_cons in Hp as [->|Hp]; [left; by eexists _, _|].
  apply list_elem_of_singleton in Hp as ->. right. by eexists.
Qed.

Lemma test_bit_row dev type bit :
  device_wf dev -> 0 <= bit < KEY_MAX ->
  exists b, test_bit bit (evbits dev type) = Some b /\ (b = 0 \/ b = 1).
Proof.
  intros (_ & Hrow & _) Hbit.
  apply (test_bit_in_array KEY_MAX); [vm_compute; done | done | apply Hrow].
Qed.

Lemma print_code_elem T dev type code l p :
  print_code T dev type code = Some l -> p ∈ l ->
  test_bit code (evbits dev type) = Some 1
  /\ ((exists cn, p = PCode code cn /\ codename T type code = Some cn)
      \/ (exists label a k,
            p = PAbs label a /\ type = EV_ABS /\ 0 <= k < 6
            /\ absdata dev code !! Z.to_nat k = Some a
            /\ absval !! Z.to_nat k = Some label /\ (k < 3 \/ a <> 0))).
Proof.
  unfold print_code. intros Hl Hp.
  destruct (test_bit code (evbits dev type)) as [b|] eqn:Hb; [|done].
  cbn [mbind option_bind] in Hl.
  destruct (test_bit_01 _ _ _ Hb) as [-> | ->].
  { change (negb (0 =? 0)) with false in Hl. cbv iota in Hl.
    injection Hl as <-. by apply elem_of_nil in Hp. }
  change (negb (1 =? 0)) with true in Hl. cbv iota in Hl.
  split; [done|].
  destruct (codename T type code) as [cn|]; [|done].
  cbn [mbind option_bind] in Hl.
  destruct (Z.eqb_spec type EV_ABS) as [Hty|Hty].
  - destruct (print_absdata (absdata dev code)) as [abs|] eqn:Habs; [|done].
    injection Hl as <-.
    apply elem_of_cons in Hp as [->|Hp]; [left; by eexists|].
    right. unfold print_absdata in Habs.
    apply (for_emit_elem _ _ _ _ _ p Habs) in Hp as (k & l' & Hk & Hl' & Hp).
    destruct (print_absdata_line_elem _ _ _ _ Hl' Hp)
      as (label & a & -> & Ha & Hlabel & Hcond).
    by exists label, a, k.
  - injection Hl as <-.
    apply list_elem_of_singleton in Hp as ->. left. by eexists.
Qed.

Lemma print_code_listed T dev type code cn :
  device_wf dev ->
  test_bit code (evbits dev type) = Some 1 ->
  codename T type code = Some cn ->
  exists abs,
    print_code T dev type code = Some (PCode code cn :: abs)
    /\ (type = EV_ABS -> print_absdata (absdata dev code) = Some abs).
Proof.
  intros (_ & _ & Habs & _) Hbit Hcn. unfold print_code.
  rewrite Hbit. cbn [mbind option_bind].
  change (negb (1 =? 0)) with true. cbv iota.
  rewrite Hcn. cbn [mbind option_bind].
  destruct (Z.eqb_spec type EV_ABS).
  - destruct (print_absdata_is_Some (absdata dev code) (Habs code)) as [abs ->].
    by exists abs.
  - by exists [].
Qed.

Lemma print_code_is_Some T dev type code :
  code_names_declared T -> device_wf dev ->
  0 <= type -> 0 <= code < KEY_MAX ->
  is_Some (print_code T dev type code).
Proof.
  intros Hdecl Hwf Hty Hcode. unfold print_code.
  destruct (test_bit_row dev type code Hwf Hcode) as (b & -> & _).
  cbn [mbind option_bind]. destruct (negb (b =? 0)); [|by eexists].
  destruct (codename_total T type code Hdecl Hty ltac:(lia)) as (cn & -> & _).
  cbn [mbind option_bind]. destruct (type =? EV_ABS); [|by eexists].
  destruct Hwf as (_ & _ & Habs & _).
  destruct (print_absdata_is_Some (absdata dev code) (Habs code)) as [abs ->].
  by eexists.
Qed.

Lemma print_codes_is_Some T dev type :
  code_names_declared T -> device_wf dev -> 0 <= type ->
  is_Some (print_codes T dev type).
Proof.
  intros Hdecl Hwf Hty. apply for_emit_is_Some; [lia|].
  intros code Hcode. by apply print_code_is_Some.
Qed.

Lemma print_type_listed T dev type tn :
  code_names_declared T -> device_wf dev -> 0 <= type ->
  test_bit type (evbits dev 0) = Some 1 -> type <> EV_REP ->
  typename type = Some tn ->
  exists codes,
    print_type T dev type = Some (PType type tn :: codes)
    /\ (type = EV_SYN -> codes = [])
    /\ (type <> EV_SYN -> print_codes T dev type = Some codes).
Proof.
  intros Hdecl Hwf Hty Hbit Hrep Htn. unfold print_type.
  rewrite Hbit. cbn [mbind option_bind].
  change (negb (1 =? 0)) with true.
  destruct (Z.eqb_spec type EV_REP); [done|]. cbn [negb andb].
  rewrite Htn. cbn [mbind option_bind].
  destruct (Z.eqb_spec type EV_SYN).
  - exists []. by split_and!.
  - destruct (print_codes_is_Some T dev type Hdecl Hwf Hty) as [codes ->].
    exists codes. by split_and!.
Qed.

Lemma print_type_unlisted T dev type b :
  test_bit type (evbits dev 0) = Some b -> b = 0 \/ type = EV_REP ->
  print_type T dev type = Some [].
Proof.
  intros Hbit Hno. unfold print_type. rewrite Hbit. cbn [mbind option_bind].
  destruct Hno as [-> | ->]; [reflexivity|].
  change (EV_REP =? EV_REP) with true. by rewrite andb_false_r.
Qed.

Lemma print_type_is_Some T dev type :
  code_names_declared T -> device_wf dev -> 0 <= type < EV_MAX ->
  is_Some (print_type T dev type).
Proof.
  intros Hdecl Hwf Hty.
  destruct (test_bit_row dev 0 type Hwf) as (b & Hb & Hb01);
    [unfold EV_MAX, KEY_MAX in *; lia|].
  destruct (decide (type = EV_REP)) as [Hrep|Hrep].
  { erewrite print_type_unlisted; [by eexists | done | by right]. }
  destruct Hb01 as [-> | ->].
  { erewrite print_type_unlisted; [by eexists | done | by left]. }
  destruct (typename_total type ltac:(lia)) as (tn & Htn & _).
  destruct (print_type_listed T dev type tn Hdecl Hwf ltac:(lia) Hb Hrep Htn)
    as (codes & -> & _).
  by eexists.
Qed.

Lemma print_type_elem T dev type l p :
  print_type T dev type = Some l -> p ∈ l ->
  test_bit type (evbits dev 0) = Some 1 /\ type <> EV_REP
  /\ ((exists tn, p = PType type tn /\ typename type = Some tn)
      \/ (type <> EV_SYN
          /\ exists code lc, 0 <= code < KEY_MAX
               /\ print_code T dev type code = Some lc /\ p ∈ lc)).
Proof.
  unfold print_type. intros Hl Hp.
  destruct (test_bit type (evbits dev 0)) as [b|] eqn:Hb; [|done].
  cbn [mbind option_bind] in Hl.
  destruct (test_bit_01 _ _ _ Hb) as [-> | ->].
  { change (negb (0 =? 0)) with false in Hl. cbn [andb] in Hl.
    injection Hl as <-. by apply elem_of_nil in Hp. }
  change (negb (1 =? 0)) with true in Hl.
  destruct (Z.eqb_spec type EV_REP) as [|Hrep]; cbn [negb andb] in Hl.
  { injection Hl as <-. by apply elem_of_nil in Hp. }
  split_and!; [done | done |].
  destruct (typename type) as [tn|]; [|done].
  cbn [mbind option_bind] in Hl.
  destruct (Z.eqb_spec type EV_SYN) as [|Hsyn].
  - injection Hl as <-. apply list_elem_of_singleton in Hp as ->.
    left. by eexists.
  - destruct (print_codes T dev type) as [codes|] eqn:Hcodes; [|done].
    injection Hl as <-.
    apply elem_of_cons in Hp as [->|Hp]; [left; by eexists|].
    right. split; [done|]. unfold print_codes in Hcodes.
    apply (for_emit_elem _ _ _ _ _ p Hcodes) in Hp
      as (code & lc & Hcode & Hlc & Hp).
    by exists code, lc.
Qed.

Lemma print_repeat_is_Some T dev :
  code_names_declared T -> device_wf dev -> is_Some (print_repeat T dev).
Proof.
  intros Hdecl Hwf. unfold print_repeat.
  destruct (test_bit_row dev 0 EV_REP Hwf) as (b & -> & _);
    [vm_compute; done|].
  cbn [mbind option_bind]. destruct (negb (b =? 0)); [|by eexists].
  change (events !! Z.to_nat EV_REP) with (Some (Some "EV_REP"%string)).
  cbn [mbind option_bind].
  destruct Hwf as (_ & _ & _ & Hrep).
  destruct (print_repdata_is_Some T (repdata dev) Hdecl Hrep) as [rep ->].
  by eexists.
Qed.

Lemma print_repeat_elem T dev out p :
  print_repeat T dev = Some out -> p ∈ out ->
  test_bit EV_REP (evbits dev 0) = Some 1
  /\ (p = PRepeatHead \/ (exists t n, p = PRepeatType t n)
      \/ (exists i n, p = PRepeatCode i n) \/ (exists v, p = PRepeatValue v)).
Proof.
  unfold print_repeat. intros Hout Hp.
  destruct (test_bit EV_REP (evbits dev 0)) as [b|] eqn:Hb; [|done].
  cbn [mbind option_bind] in Hout.
  destruct (test_bit_01 _ _ _ Hb) as [-> | ->].
  { change (negb (0 =? 0)) with false in Hout. cbv iota in Hout.
    injection Hout as <-. by apply elem_of_nil in Hp. }
  change (negb (1 =? 0)) with true in Hout. cbv iota in Hout.
  split; [done|].
  destruct (events !! Z.to_nat EV_REP) as [entry|]; [|done].
  cbn [mbind option_bind] in Hout.
  destruct (print_repdata T (repdata dev)) as [rep|] eqn:Hrep; [|done].
  injection Hout as <-.
  apply elem_of_cons in Hp as [->|Hp]; [by left|].
  apply elem_of_cons in Hp as [->|Hp]; [right; left; by eexists _, _|].
  destruct (print_repdata_elem _ _ _ _ Hrep Hp) as [?|?]; auto.
Qed.

(** The shape of a successful report. *)
Lemma print_device_info_report T dev :
  code_names_declared T -> device_wf dev -> version_rc dev = 0 ->
  exists bus vendor product idversion out_types out_rep,
    for_emit (S (Z.to_nat EV_MAX)) 0 EV_MAX (print_type T dev) = Some out_types
    /\ print_repeat T dev = Some out_rep
    /\ print_device_info T dev
       = Some (0, [PVersion (Z.shiftr (version dev) 16)
                            (Z.land (Z.shiftr (version dev) 8) 255)
                            (Z.land (version dev) 255)]
                  ++ [PId bus vendor product idversion; PName (dev_name dev);
                      PSupported]
                  ++ out_types ++ out_rep).
Proof.
  intros Hdecl Hwf Hrc. unfold print_device_info. rewrite Hrc.
  change (negb (0 =? 0)) with false. cbv iota.
  pose proof Hwf as (Hid & _).
  destruct (dev_id dev) as [|bus [|vendor [|product [|idversion [|]]]]];
    try discriminate Hid.
  cbn [lookup list_lookup Z.to_nat ID_BUS ID_VENDOR ID_PRODUCT ID_VERSION
       Pos.to_nat Pos.iter_op Nat.add mbind option_bind].
  destruct (for_emit_is_Some (S (Z.to_nat EV_MAX)) 0 EV_MAX (print_type T dev))
    as [out_types Htypes]; [lia | |].
  { intros type Hty. by apply print_type_is_Some. }
  destruct (print_repeat_is_Some T dev Hdecl Hwf) as [out_rep Hrep].
  exists bus, vendor, product, idversion, out_types, out_rep.
  rewrite Htypes, Hrep. by split_and!.
Qed.



Lemma device_example_wf : device_wf device_example.
Proof.
  split_and!; [reflexivity | | | reflexivity].
  - intros type. cbn [device_example evbits].
    destruct (type =? 0); [reflexivity|].
    destruct (type =? EV_ABS); reflexivity.
  - intros axis. cbn [device_example absdata].
    destruct (axis =? 0); reflexivity.
Qed.

Lemma empty_code_names_declared : code_names_declared empty_code_names.
Proof. repeat split. Qed.


(** In a report the line of an event type is there exactly for the
    types below [EV_MAX] whose bit is set in the bitmap of the device,
    [EV_REP] apart, with the name [typename] gives: type [EV_MAX] is
    never listed, and [EV_REP] only under key repeat. *)
Theorem print_device_info_types T dev :
  code_names_declared T -> device_wf dev -> version_rc dev = 0 ->
  exists out,
    print_device_info T dev = Some (0, out)
    /\ forall type name,
         PType type name ∈ out
         <-> 0 <= type < EV_MAX /\ type <> EV_REP
             /\ test_bit type (evbits dev 0) = Some 1
             /\ typename type = Some name.
Proof.
  intros Hdecl Hwf Hrc.
  destruct (print_device_info_report T dev Hdecl Hwf Hrc)
    as (bus & vendor & product & idversion & out_types & out_rep
        & Htypes & Hrep & ->).
  eexists. split; [reflexivity|]. intros type name.
  rewrite !elem_of_app, (for_emit_elem _ _ _ _ _ _ Htypes). split.
  - intros [Hp | [Hp | [(j & l & Hj & Hl & Hp) | Hp]]].
    + other_line.
    + other_line.
    + destruct (print_type_elem _ _ _ _ _ Hl Hp)
        as (Hbit & Hnrep & [(tn & [= -> ->] & Htn) | (_ & code & lc & _ & Hlc & Hp')]).
      * split_and!; first [done | lia].
      * destruct (print_code_elem _ _ _ _ _ _ Hlc Hp') as (_ & Hkind).
        other_line.
    + destruct (print_repeat_elem _ _ _ _ Hrep Hp) as (_ & Hkind).
      other_line.
  - intros (Hty & Hnrep & Hbit & Htn). right. right. left.
    destruct (print_type_listed T dev type name Hdecl Hwf ltac:(lia)
                Hbit Hnrep Htn) as (codes & Hl & _).
    exists type, (PType type name :: codes).
    split_and!; [lia | lia | done | apply list_elem_of_here].
Qed.

Lemma print_device_info_types_witness :
  exists out,
    print_device_info empty_code_names device_example = Some (0, out)
    /\ forall type name,
         PType type name ∈ out
         <-> 0 <= type < EV_MAX /\ type <> EV_REP
             /\ test_bit type (evbits device_example 0) = Some 1
             /\ typename type = Some name.
Proof.
  apply (print_device_info_types empty_code_names device_example).
  - exact empty_code_names_declared.
  - exact device_example_wf.
  - reflexivity.
Defined.

(** In a report the line of a code is there exactly for the codes below
    [KEY_MAX] whose bit is set in the bitmap of a listed event type
    other than [EV_SYN], with the name [codename] gives for that type:
    for [EV_SYN] no code is listed, and code [KEY_MAX] never. *)
Theorem print_device_info_codes T dev :
  code_names_declared T -> device_wf dev -> version_rc dev = 0 ->
  exists out,
    print_device_info T dev = Some (0, out)
    /\ forall code name,
         PCode code name ∈ out
         <-> exists type,
               (0 <= type < EV_MAX /\ type <> EV_REP /\ type <> EV_SYN
                /\ test_bit type (evbits dev 0) = Some 1)
               /\ 0 <= code < KEY_MAX
               /\ test_bit code (evbits dev type) = Some 1
               /\ codename T type code = Some name.
Proof.
  intros Hdecl Hwf Hrc.
  destruct (print_device_info_report T dev Hdecl Hwf Hrc)
    as (bus & vendor & product & idversion & out_types & out_rep
        & Htypes & Hrep & ->).
  eexists. split; [reflexivity|]. intros code name.
  rewrite !elem_of_app, (for_emit_elem _ _ _ _ _ _ Htypes). split.
  - intros [Hp | [Hp | [(j & l & Hj & Hl & Hp) | Hp]]].
    + other_line.
    + other_line.
    + destruct (print_type_elem _ _ _ _ _ Hl Hp)
        as (Hbit & Hnrep & [(tn & [=] & _)
                           | (Hnsyn & code' & lc & Hcode & Hlc & Hp')]).
      destruct (print_code_elem _ _ _ _ _ _ Hlc Hp')
        as (Hcbit & [(cn & [= -> ->] & Hcn) | Habs]); [|other_line].
      exists j. split_and!; first [done | lia].
    + destruct (print_repeat_elem _ _ _ _ Hrep Hp) as (_ & Hkind).
      other_line.
  - intros (type & (Hty & Hnrep & Hnsyn & Hbit) & Hcode & Hcbit & Hcn).
    right. right. left.
    destruct (typename_total type ltac:(lia)) as (tn & Htn & _).
    destruct (print_type_listed T dev type tn Hdecl Hwf ltac:(lia)
                Hbit Hnrep Htn) as (codes & Hl & _ & Hcodes).
    specialize (Hcodes Hnsyn).
    exists type, (PType type tn :: codes).
    split_and!; [lia | lia | done |]. apply list_elem_of_further.
    unfold print_codes in Hcodes.
    apply (for_emit_elem _ _ _ _ _ _ Hcodes).
    destruct (print_code_listed T dev type code name Hwf Hcbit Hcn)
      as (abs & Hprint & _).
    exists code, (PCode code name :: abs).
    split_and!; [lia | lia | done | apply list_elem_of_here].
Qed.

Lemma print_device_info_codes_witness :
  exists out,
    print_device_info empty_code_names device_example = Some (0, out)
    /\ forall code name,
         PCode code name ∈ out
         <-> exists type,
               (0 <= type < EV_MAX /\ type <> EV_REP /\ type <> EV_SYN
                /\ test_bit type (evbits device_example 0) = Some 1)
               /\ 0 <= code < KEY_MAX
               /\ test_bit code (evbits device_example type) = Some 1
               /\ codename empty_code_names type code = Some name.
Proof.
  apply (print_device_info_codes empty_code_names device_example).
  - exact empty_code_names_declared.
  - exact device_example_wf.
  - reflexivity.
Defined.

Lemma print_absdata_line_listed abs k a label :
  abs !! Z.to_nat k = Some a -> absval !! Z.to_nat k = Some label ->
  k < 3 \/ a <> 0 ->
  print_absdata_line abs k = Some [PAbs label a].
Proof.
  intros Ha Hlabel Hcond. unfold print_absdata_line.
  rewrite Ha. cbn [mbind option_bind].
  assert ((k <? 3) || negb (a =? 0) = true) as ->.
  { apply orb_true_iff. destruct Hcond; [left; lia | right].
    apply negb_true_iff. lia. }
  by rewrite Hlabel.
Qed.

(** In a report the lines of axis data are those of the codes listed
    for [EV_ABS], and of no other type: for each such code the value,
    the minimum and the maximum, and of fuzz, flat and resolution the
    ones that are not 0. *)
Theorem print_device_info_absdata T dev :
  code_names_declared T -> device_wf dev -> version_rc dev = 0 ->
  exists out,
    print_device_info T dev = Some (0, out)
    /\ forall label a,
         PAbs label a ∈ out
         <-> test_bit EV_ABS (evbits dev 0) = Some 1
             /\ exists code k,
                  0 <= code < KEY_MAX
                  /\ test_bit code (evbits dev EV_ABS) = Some 1
                  /\ 0 <= k < 6
                  /\ absdata dev code !! Z.to_nat k = Some a
                  /\ absval !! Z.to_nat k = Some label
                  /\ (k < 3 \/ a <> 0).
Proof.
  intros Hdecl Hwf Hrc.
  destruct (print_device_info_report T dev Hdecl Hwf Hrc)
    as (bus & vendor & product & idversion & out_types & out_rep
        & Htypes & Hrep & ->).
  eexists. split; [reflexivity|]. intros label a.
  rewrite !elem_of_app, (for_emit_elem _ _ _ _ _ _ Htypes). split.
  - intros [Hp | [Hp | [(j & l & Hj & Hl & Hp) | Hp]]].
    + other_line.
    + other_line.
    + destruct (print_type_elem _ _ _ _ _ Hl Hp)
        as (Hbit & Hnrep & [(tn & [=] & _)
                           | (Hnsyn & code & lc & Hcode & Hlc & Hp')]).
      destruct (print_code_elem _ _ _ _ _ _ Hlc Hp')
        as (Hcbit & [(cn & [=] & _)
                    | (label' & a' & k & [= -> ->] & -> & Hk & Ha & Hl' & Hc)]).
      split; [done|]. exists code, k. split_and!; first [done | lia].
    + destruct (print_repeat_elem _ _ _ _ Hrep Hp) as (_ & Hkind).
      other_line.
  - intros (Hbit & code & k & Hcode & Hcbit & Hk & Ha & Hlabel & Hcond).
    right. right. left.
    destruct (typename_total EV_ABS ltac:(done)) as (tn & Htn & _).
    destruct (print_type_listed T dev EV_ABS tn Hdecl Hwf ltac:(done)
                Hbit ltac:(done) Htn) as (codes & Hl & _ & Hcodes).
    specialize (Hcodes ltac:(done)).
    exists EV_ABS, (PType EV_ABS tn :: codes).
    split_and!; [done | done | done |]. apply list_elem_of_further.
    unfold print_codes in Hcodes.
    apply (for_emit_elem _ _ _ _ _ _ Hcodes).
    destruct (codename_total T EV_ABS code Hdecl ltac:(done) ltac:(lia))
      as (cn & Hcn & _).
    destruct (print_code_listed T dev EV_ABS code cn Hwf Hcbit Hcn)
      as (abs & Hprint & Habs).
    specialize (Habs eq_refl).
    exists code, (PCode code cn :: abs).
    split_and!; [lia | lia | done |]. apply list_elem_of_further.
    unfold print_absdata in Habs.
    apply (for_emit_elem _ _ _ _ _ _ Habs).
    exists k, [PAbs label a].
    split_and!; [lia | lia | | apply list_elem_of_here].
    by apply print_absdata_line_listed.
Qed.

Lemma print_device_info_absdata_witness :
  exists out,
    print_device_info empty_code_names device_example = Some (0, out)
    /\ forall label a,
         PAbs label a ∈ out
         <-> test_bit EV_ABS (evbits device_example 0) = Some 1
             /\ exists code k,
                  0 <= code < KEY_MAX
                  /\ test_bit code (evbits device_example EV_ABS) = Some 1
                  /\ 0 <= k < 6
                  /\ absdata device_example code !! Z.to_nat k = Some a
                  /\ absval !! Z.to_nat k = Some label
                  /\ (k < 3 \/ a <> 0).
Proof.
  apply (print_device_info_absdata empty_code_names device_example).
  - exact empty_code_names_declared.
  - exact device_example_wf.
  - reflexivity.
Defined.

(** ** The sample as a function of the batch *)

Lemma of_axis_nil a l :
  of_axis a l = [] -> Forall (fun e => ~ is_axis a e) l.
Proof.
  intros Hnil. apply list.Forall_forall. intros e He Hax.
  by apply (filter_nil_not_elem_of _ _ e Hnil).
Qed.

Lemma decode_field_last_value a l :
  a <> AxisNone -> field a (decode l) = Some (last_value a l).
Proof.
  intros Ha. unfold last_value.
  destruct (list.last (of_axis a l)) as [e|] eqn:Hlast.
  - assert (Hax : is_axis a e).
    { apply last_Some_elem_of in Hlast.
      by apply list_elem_of_filter in Hlast as [? _]. }
    apply last_filter_Some in Hlast as (l1 & l2 & -> & Hl2).
    by apply decode_from_field_last.
  - apply last_None in Hlast. apply decode_field_absent; [done|].
    by apply of_axis_nil.
Qed.

Lemma decode_sample e0 l :
  decode (e0 :: l)
  = mk_touchpad_event (last_value AxisX (e0 :: l)) (last_value AxisY (e0 :: l))
      (last_value AxisPressure (e0 :: l))
      (tv_sec (time e0)) (tv_usec (time e0)).
Proof.
  destruct (decode_seconds e0 l) as [Hs Hu].
  apply touchpad_event_eq; try done; by apply decode_field_last_value.
Qed.

(** Every successful call gives the sample that the batch determines:
    in each of [x], [y] and [pressure] the value of the last record of
    that axis in the batch, or [ABSENT] when the batch has none, and as
    time that of the first record of the batch. *)
Theorem fetch_sample r event :
  read_ok r -> sizeof_input_event <= read_ret r ->
  exists e0,
    head (batch r) = Some e0
    /\ fetch_touchpad_event r event
       = Some (0, mk_touchpad_event
                    (last_value AxisX (batch r)) (last_value AxisY (batch r))
                    (last_value AxisPressure (batch r))
                    (tv_sec (time e0)) (tv_usec (time e0))).
Proof.
  intros Hok Hsz. rewrite fetch_success by done.
  destruct (batch r) as [|e0 l] eqn:Hb.
  { apply (batch_nil r Hok) in Hb. lia. }
  exists e0. split; [done|]. by rewrite decode_sample.
Qed.

Lemma fetch_sample_witness :
  exists e0,
    head (batch (read_of [ev_key 330 1 3 4; ev_abs_y 9 3 4; ev_abs_y 8 3 5] 5))
    = Some e0
    /\ fetch_touchpad_event
         (read_of [ev_key 330 1 3 4; ev_abs_y 9 3 4; ev_abs_y 8 3 5] 5)
         old_event
       = Some (0, mk_touchpad_event
                    (last_value AxisX
                       (batch (read_of [ev_key 330 1 3 4; ev_abs_y 9 3 4;
                                        ev_abs_y 8 3 5] 5)))
                    (last_value AxisY
                       (batch (read_of [ev_key 330 1 3 4; ev_abs_y 9 3 4;
                                        ev_abs_y 8 3 5] 5)))
                    (last_value AxisPressure
                       (batch (read_of [ev_key 330 1 3 4; ev_abs_y 9 3 4;
                                        ev_abs_y 8 3 5] 5)))
                    (tv_sec (time e0)) (tv_usec (time e0))).
Proof.
  apply (fetch_sample
           (read_of [ev_key 330 1 3 4; ev_abs_y 9 3 4; ev_abs_y 8 3 5] 5)
           old_event).
  - apply read_of_ok; vm_compute; [lia | split; discriminate].
  - vm_compute. discriminate.
Defined.

Lemma last_value_app a l1 l2 :
  last_value a (l1 ++ l2)
  = if decide (of_axis a l2 = []) then last_value a l1 else last_value a l2.
Proof.
  unfold last_value, of_axis. rewrite list.filter_app, list.last_app.
  destruct (decide _) as [->|Hne]; [done|].
  apply last_is_Some in Hne as [e ->]. done.
Qed.

(** One read of two batches in a row against two reads of one each: the
    sample of the long batch has the time of the first sample, and in
    each tracked field the value of the second sample when the second
    batch has a record of that axis, and the value of the first sample
    otherwise. *)
Theorem fetch_split r1 r2 r12 event1 event2 event12 :
  read_ok r1 -> read_ok r2 -> read_ok r12 ->
  sizeof_input_event <= read_ret r1 -> sizeof_input_event <= read_ret r2 ->
  batch r12 = batch r1 ++ batch r2 ->
  exists s1 s2 s12,
    fetch_touchpad_event r1 event1 = Some (0, s1)
    /\ fetch_touchpad_event r2 event2 = Some (0, s2)
    /\ fetch_touchpad_event r12 event12 = Some (0, s12)
    /\ seconds s12 = seconds s1 /\ useconds s12 = useconds s1
    /\ forall a, a <> AxisNone ->
         field a s12
         = if decide (of_axis a (batch r2) = []) then field a s1
           else field a s2.
Proof.
  intros Hok1 Hok2 Hok12 Hsz1 Hsz2 Hb.
  assert (Hsz12 : sizeof_input_event <= read_ret r12).
  { destruct (batch r1) as [|e l] eqn:Hb1.
    - apply (batch_nil r1 Hok1) in Hb1. lia.
    - by eapply batch_cons. }
  do 3 eexists. rewrite !fetch_success by done.
  split_and!; try reflexivity.
  - rewrite Hb. destruct (batch r1) as [|e l] eqn:Hb1.
    { apply (batch_nil r1 Hok1) in Hb1. lia. }
    change ((e :: l) ++ batch r2) with (e :: (l ++ batch r2)).
    destruct (decode_seconds e l) as [-> _].
    by destruct (decode_seconds e (l ++ batch r2)) as [-> _].
  - rewrite Hb. destruct (batch r1) as [|e l] eqn:Hb1.
    { apply (batch_nil r1 Hok1) in Hb1. lia. }
    change ((e :: l) ++ batch r2) with (e :: (l ++ batch r2)).
    destruct (decode_seconds e l) as [_ ->].
    by destruct (decode_seconds e (l ++ batch r2)) as [_ ->].
  - intros a Ha. rewrite !decode_field_last_value, Hb, last_value_app by done.
    by destruct (decide _).
Qed.

Lemma fetch_split_witness :
  exists s1 s2 s12,
    fetch_touchpad_event (read_of [ev_abs_x 1 10 0; ev_abs_y 2 10 0] 0)
                         old_event = Some (0, s1)
    /\ fetch_touchpad_event (read_of [ev_abs_x 3 11 0] 0) old_event
       = Some (0, s2)
    /\ fetch_touchpad_event
         (read_of [ev_abs_x 1 10 0; ev_abs_y 2 10 0; ev_abs_x 3 11 0] 0)
         old_event = Some (0, s12)
    /\ seconds s12 = seconds s1 /\ useconds s12 = useconds s1
    /\ forall a, a <> AxisNone ->
         field a s12
         = if decide (of_axis a (batch (read_of [ev_abs_x 3 11 0] 0)) = [])
           then field a s1 else field a s2.
Proof.
  apply (fetch_split
           (read_of [ev_abs_x 1 10 0; ev_abs_y 2 10 0] 0)
           (read_of [ev_abs_x 3 11 0] 0)
           (read_of [ev_abs_x 1 10 0; ev_abs_y 2 10 0; ev_abs_x 3 11 0] 0)).
  - apply read_of_ok; vm_compute; [lia | split; discriminate].
  - apply read_of_ok; vm_compute; [lia | split; discriminate].
  - apply read_of_ok; vm_compute; [lia | split; discriminate].
  - vm_compute. discriminate.
  - vm_compute. discriminate.
  - reflexivity.
Defined.

Lemma to_int_range z : - 2 ^ 31 <= to_int z < 2 ^ 31.
Proof.
  unfold to_int. pose proof (Z.mod_pos_bound (z + 2 ^ 31) (2 ^ 32)). lia.
Qed.

Lemma last_value_range a l :
  Forall input_event_wf l -> - 2 ^ 31 <= last_value a l < 2 ^ 31.
Proof.
  intros Hwf. unfold last_value.
  destruct (list.last (of_axis a l)) as [e|] eqn:Hlast; [|unfold ABSENT; lia].
  apply last_Some_elem_of in Hlast.
  apply list_elem_of_filter in Hlast as [_ He].
  rewrite list.Forall_forall in Hwf.
  by destruct (Hwf e He) as (_ & _ & Hv & _).
Qed.

(** After a successful call on well-formed records the getters of the
    three axes return the values of the sample, which lie in the range
    of [int].  [get_seconds] and [get_useconds] return the time of the
    first record reduced to 32 bits: the seconds themselves exactly
    when they lie in the range of [int]. *)
Theorem getters_after_fetch r event s e0 :
  read_ok r -> Forall input_event_wf (batch r) ->
  fetch_touchpad_event r event = Some (0, s) ->
  head (batch r) = Some e0 ->
  (get_x s = last_value AxisX (batch r) /\ - 2 ^ 31 <= get_x s < 2 ^ 31)
  /\ (get_y s = last_value AxisY (batch r) /\ - 2 ^ 31 <= get_y s < 2 ^ 31)
  /\ (get_pressure s = last_value AxisPressure (batch r)
      /\ - 2 ^ 31 <= get_pressure s < 2 ^ 31)
  /\ get_seconds s = to_int (tv_sec (time e0))
  /\ get_useconds s = to_int (tv_usec (time e0))
  /\ (get_seconds s = tv_sec (time e0)
      <-> - 2 ^ 31 <= tv_sec (time e0) < 2 ^ 31).
Proof.
  intros Hok Hwf Hfetch Hhd.
  destruct (Z.lt_ge_cases (read_ret r) sizeof_input_event) as [Hlt|Hge].
  { rewrite fetch_short in Hfetch by done. discriminate. }
  rewrite fetch_success in Hfetch by done. injection Hfetch as <-.
  destruct (batch r) as [|e l] eqn:Hb; [discriminate|].
  cbn in Hhd. injection Hhd as ->.
  rewrite decode_sample. unfold get_x, get_y, get_pressure, get_seconds,
    get_useconds. cbn [x y pressure seconds useconds].
  pose proof (last_value_range AxisX _ Hwf).
  pose proof (last_value_range AxisY _ Hwf).
  pose proof (last_value_range AxisPressure _ Hwf).
  split; [split; [reflexivity | lia]|].
  split; [split; [reflexivity | lia]|].
  split; [split; [reflexivity | lia]|].
  split; [reflexivity|]. split; [reflexivity|].
  split; [intros <-; apply to_int_range | apply to_int_id].
Qed.

Lemma getters_after_fetch_witness :
  (get_x (mk_touchpad_event 5 ABSENT ABSENT 4294967296 7)
   = last_value AxisX (batch (read_of [ev_abs_x 5 4294967296 7] 0))
   /\ - 2 ^ 31 <= get_x (mk_touchpad_event 5 ABSENT ABSENT 4294967296 7)
      < 2 ^ 31)
  /\ (get_y (mk_touchpad_event 5 ABSENT ABSENT 4294967296 7)
      = last_value AxisY (batch (read_of [ev_abs_x 5 4294967296 7] 0))
      /\ - 2 ^ 31 <= get_y (mk_touchpad_event 5 ABSENT ABSENT 4294967296 7)
         < 2 ^ 31)
  /\ (get_pressure (mk_touchpad_event 5 ABSENT ABSENT 4294967296 7)
      = last_value AxisPressure (batch (read_of [ev_abs_x 5 4294967296 7] 0))
      /\ - 2 ^ 31
         <= get_pressure (mk_touchpad_event 5 ABSENT ABSENT 4294967296 7)
         < 2 ^ 31)
  /\ get_seconds (mk_touchpad_event 5 ABSENT ABSENT 4294967296 7)
     = to_int (tv_sec (time (ev_abs_x 5 4294967296 7)))
  /\ get_useconds (mk_touchpad_event 5 ABSENT ABSENT 4294967296 7)
     = to_int (tv_usec (time (ev_abs_x 5 4294967296 7)))
  /\ (get_seconds (mk_touchpad_event 5 ABSENT ABSENT 4294967296 7)
      = tv_sec (time (ev_abs_x 5 4294967296 7))
      <-> - 2 ^ 31 <= tv_sec (time (ev_abs_x 5 4294967296 7)) < 2 ^ 31).
Proof.
  apply (getters_after_fetch (read_of [ev_abs_x 5 4294967296 7] 0) old_event).
  - apply read_of_ok; vm_compute; [lia | split; discriminate].
  - repeat constructor; vm_compute; discriminate.
  - reflexivity.
  - reflexivity.
Defined.



(** ** Opening the device *)





(** ** The part on key repeat *)



